(** * Evidence of validator misbehaviour and the mock signing authority

    A shallow embedding of the Go package [types]: the evidence file
    ([ErrEvidenceInvalid], [MaxEvidenceBytesPerBlock],
    [DuplicateVoteEvidence], the two mock evidence variants and
    [EvidenceList]) and [priv_validator.go] ([MockPV]).

    Conventions of the embedding.
    - A Go [[]byte] is a [list byte]; the nil slice and the empty slice are
      both [[]], as [bytes.Equal] and [len] treat them.
    - Go integers ([int64], [int], [byte]) are [Z]; the only arithmetic in
      these files is one division by ten.
    - A Go pointer field is an [option]: [None] is the nil pointer.  A run
      either returns or panics ([outcome]).
    - The interface [Evidence] is the closed sum of the three concrete
      types registered by [RegisterEvidences]; interface values are not
      nil.
    - Types and functions that these files use and that are declared
      elsewhere (keys, block identifiers, sign-bytes, the amino hasher, the
      two-hash combination of crypto/merkle) are the fields of the classes
      [Collaborators] and [External]. *)

From Stdlib Require Import ZArith List String Ascii Bool Lia DecimalString.
From Stdlib.Strings Require Import Byte.
From Stdlib Require DecimalPos DecimalZ Permutation.
From Equations Require Import Equations.
Import ListNotations.

Open Scope Z_scope.

(** ** Byte slices *)

Definition bytes : Type := list byte.

(** [bytes.Equal]. *)
Fixpoint bytes_Equal (a b : bytes) : bool :=
  match a, b with
  | [], [] => true
  | x :: a', y :: b' => Byte.eqb x y && bytes_Equal a' b'
  | _, _ => false
  end.

(** ** Formatting with [fmt.Sprintf]

    The two verbs whose output is hashed: [%d] on an [int64] and [%x] on a
    byte slice (two lower-case hexadecimal digits per byte). *)

Definition sprintf_d (z : Z) : string := NilZero.string_of_int (Z.to_int z).

Definition hex_digit (n : N) : ascii :=
  match n with
  | 0%N => "0" | 1%N => "1" | 2%N => "2" | 3%N => "3"
  | 4%N => "4" | 5%N => "5" | 6%N => "6" | 7%N => "7"
  | 8%N => "8" | 9%N => "9" | 10%N => "a" | 11%N => "b"
  | 12%N => "c" | 13%N => "d" | 14%N => "e" | _ => "f"
  end%char.

Fixpoint sprintf_x (b : bytes) : string :=
  match b with
  | [] => EmptyString
  | x :: b' =>
      let n := Byte.to_N x in
      String (hex_digit (N.div n 16)) (String (hex_digit (N.modulo n 16)) (sprintf_x b'))
  end.

(** ** Outcomes of a run: a returned value or a runtime panic *)

Inductive panic : Type :=
| NilDereference   (* invalid memory address or nil pointer dereference *)
| TypeAssertion.   (* interface conversion: a failed [x.(T)] *)

Inductive outcome (A : Type) : Type :=
| Returns (a : A)
| Panics (p : panic).

Arguments Returns {A} a.
Arguments Panics {A} p.

Definition obind {A B : Type} (c : outcome A) (k : A -> outcome B) : outcome B :=
  match c with
  | Returns a => k a
  | Panics p => Panics p
  end.

Declare Scope outcome_scope.
Delimit Scope outcome_scope with outcome.
Notation "x <- c ;; k" := (obind c (fun x => k))
  (at level 100, c at next level, right associativity) : outcome_scope.

(** Following a pointer. *)
Definition deref {A : Type} (p : option A) : outcome A :=
  match p with
  | Some a => Returns a
  | None => Panics NilDereference
  end.

(** ** State passing for in-place signing

    [SignProposal] and [SignHeartbeat] write through their pointer
    argument; the pointee is the state. *)

Definition St (S A : Type) : Type := S -> S * A.

Definition sret {S A : Type} (a : A) : St S A := fun s => (s, a).
Definition sbind {S A B : Type} (c : St S A) (k : A -> St S B) : St S B :=
  fun s => let (s', a) := c s in k a s'.
Definition sget {S : Type} : St S S := fun s => (s, s).
Definition sput {S : Type} (s' : S) : St S unit := fun _ => (s', tt).

Declare Scope st_scope.
Delimit Scope st_scope with st.
Notation "x <- c ;; k" := (sbind c (fun x => k))
  (at level 100, c at next level, right associativity) : st_scope.
Notation "c ;;; k" := (sbind c (fun _ => k))
  (at level 100, right associativity) : st_scope.

(** ** Types declared outside these files *)

Class Collaborators : Type := {
  (** [crypto.PubKey] and [crypto.PrivKey] (non-nil interface values). *)
  PubKey : Type;
  PrivKey : Type;
  (** The block reference of a vote. *)
  BlockID : Type;
  (** The fields of [Vote], [Proposal] and [Heartbeat] that these files do
      not name. *)
  VoteOther : Type;
  ProposalOther : Type;
  HeartbeatOther : Type
}.

Section DataModel.
Context {C : Collaborators}.

(** The fields of [Vote] read by [Verify] and [Height]. *)
Record Vote : Type := {
  Vote_Height : Z;
  Vote_Round : Z;
  Vote_Type : Z;
  Vote_ValidatorAddress : bytes;
  Vote_ValidatorIndex : Z;
  Vote_BlockID : BlockID;
  Vote_other : VoteOther
}.

(** The two fields of [SignVoteReply] that these files set and read. *)
Record SignVoteReply : Type := {
  Reply_Vote : Vote;
  Reply_Signature : bytes
}.

Record Proposal : Type := {
  Proposal_Signature : bytes;
  Proposal_other : ProposalOther
}.

Record Heartbeat : Type := {
  Heartbeat_Signature : bytes;
  Heartbeat_other : HeartbeatOther
}.

(** [DuplicateVoteEvidence]: both votes are pointers. *)
Record DuplicateVoteEvidence : Type := {
  dve_PubKey : PubKey;
  VoteA : option SignVoteReply;
  VoteB : option SignVoteReply
}.

Record MockGoodEvidence : Type := {
  Height_ : Z;
  Address_ : bytes
}.

(** [MockBadEvidence] embeds a [MockGoodEvidence]. *)
Record MockBadEvidence : Type := {
  embedded : MockGoodEvidence
}.

(** A value of interface type [Evidence], by its dynamic type. *)
Inductive Evidence : Type :=
| EvDuplicateVote (dve : DuplicateVoteEvidence)   (* *DuplicateVoteEvidence *)
| EvMockGood (e : MockGoodEvidence)
| EvMockBad (e : MockBadEvidence).

Definition EvidenceList : Type := list Evidence.

(** Go errors.  [Errorf] is [fmt.Errorf] with its format and operands left
    unrendered; [ErrEvidenceInvalid] is the struct of that name behind its
    pointer. *)
Inductive error : Type :=
| Errorf (format : string) (operands : list fmt_operand)
| ErrEvidenceInvalid (ev : Evidence) (ErrorValue : error)
with fmt_operand : Type :=
| OpReply (r : option SignVoteReply)
| OpBytes (b : bytes)
| OpInt (z : Z)
| OpBlockID (b : BlockID)
| OpPubKey (k : PubKey)
| OpError (e : error).

(** [MockPV]. *)
Record MockPV : Type := {
  privKey : PrivKey
}.

End DataModel.

(** ** Functions declared outside these files *)

Class External {C : Collaborators} : Type := {
  (** [crypto.PubKey]: [Address()] and [VerifyBytes(msg, sig)]. *)
  PubKey_Address : PubKey -> bytes;
  PubKey_VerifyBytes : PubKey -> bytes -> bytes -> bool;
  (** [crypto.PrivKey]: [PubKey()] and [Sign(msg)], which returns a
      signature or an error. *)
  PrivKey_PubKey : PrivKey -> PubKey;
  PrivKey_Sign : PrivKey -> bytes -> bytes + error;
  (** [BlockID.Equals]. *)
  BlockID_Equals : BlockID -> BlockID -> bool;
  (** [Vote.SignBytes()], without a chain identifier, and
      [Proposal.SignBytes(chainID)], [Heartbeat.SignBytes(chainID)]. *)
  Vote_SignBytes : Vote -> bytes;
  Proposal_SignBytes : Proposal -> string -> bytes;
  Heartbeat_SignBytes : Heartbeat -> string -> bytes;
  (** [aminoHasher(item).Hash()] on the values these files hash. *)
  aminoHasher_Hash : Evidence -> bytes;
  (** [merkle.SimpleHashFromTwoHashes]. *)
  SimpleHashFromTwoHashes : bytes -> bytes -> bytes;
  (** The package variable [ErrVoteInvalidSignature]. *)
  ErrVoteInvalidSignature : error
}.

Section Operations.
Context {C : Collaborators} {X : External}.

(** *** The error wrapper *)

Definition NewEvidenceInvalidErr (ev : Evidence) (err : error) : error :=
  ErrEvidenceInvalid ev err.

(** The two fields of an [*ErrEvidenceInvalid]; [None] on any other error. *)
Definition wrapped_Evidence (e : error) : option Evidence :=
  match e with
  | ErrEvidenceInvalid ev _ => Some ev
  | Errorf _ _ => None
  end.

Definition wrapped_ErrorValue (e : error) : option error :=
  match e with
  | ErrEvidenceInvalid _ cause => Some cause
  | Errorf _ _ => None
  end.

(** *** Size ceilings *)

Definition MaxEvidenceBytes : Z := 440.

(** Go's [/] on [int] truncates toward zero. *)
Definition MaxEvidenceBytesPerBlock (blockMaxBytes : Z) : Z :=
  Z.quot blockMaxBytes 10.

(** *** DuplicateVoteEvidence *)

Definition DuplicateVoteEvidence_Height (dve : DuplicateVoteEvidence) : outcome Z :=
  (a <- deref (VoteA dve) ;;
   Returns (Vote_Height (Reply_Vote a)))%outcome.

Definition DuplicateVoteEvidence_Address (dve : DuplicateVoteEvidence) : bytes :=
  PubKey_Address (dve_PubKey dve).

Definition DuplicateVoteEvidence_Hash (dve : DuplicateVoteEvidence) : bytes :=
  aminoHasher_Hash (EvDuplicateVote dve).

Definition DuplicateVoteEvidence_Verify
  (dve : DuplicateVoteEvidence) (chainID : string) (pubKey : PubKey)
  : outcome (option error) :=
  (a <- deref (VoteA dve) ;;
   b <- deref (VoteB dve) ;;
   let va := Reply_Vote a in
   let vb := Reply_Vote b in
   (* H/R/S must be the same *)
   if negb (Vote_Height va =? Vote_Height vb)
      || negb (Vote_Round va =? Vote_Round vb)
      || negb (Vote_Type va =? Vote_Type vb)
   then Returns (Some (Errorf
          "DuplicateVoteEvidence Error: H/R/S does not match. Got %v and %v"
          [OpReply (VoteA dve); OpReply (VoteB dve)]))
   (* Address must be the same *)
   else if negb (bytes_Equal (Vote_ValidatorAddress va) (Vote_ValidatorAddress vb))
   then Returns (Some (Errorf
          "DuplicateVoteEvidence Error: Validator addresses do not match. Got %X and %X"
          [OpBytes (Vote_ValidatorAddress va); OpBytes (Vote_ValidatorAddress vb)]))
   (* Index must be the same *)
   else if negb (Vote_ValidatorIndex va =? Vote_ValidatorIndex vb)
   then Returns (Some (Errorf
          "DuplicateVoteEvidence Error: Validator indices do not match. Got %d and %d"
          [OpInt (Vote_ValidatorIndex va); OpInt (Vote_ValidatorIndex vb)]))
   (* BlockIDs must be different *)
   else if BlockID_Equals (Vote_BlockID va) (Vote_BlockID vb)
   then Returns (Some (Errorf
          "DuplicateVoteEvidence Error: BlockIDs are the same (%v) - not a real duplicate vote"
          [OpBlockID (Vote_BlockID va)]))
   (* pubkey must match address (this should already be true, sanity check) *)
   else
     let addr := Vote_ValidatorAddress va in
     if negb (bytes_Equal (PubKey_Address pubKey) addr)
     then Returns (Some (Errorf
          "DuplicateVoteEvidence FAILED SANITY CHECK - address (%X) doesn't match pubkey (%v - %X)"
          [OpBytes addr; OpPubKey pubKey; OpBytes (PubKey_Address pubKey)]))
     (* Signatures must be valid *)
     else if negb (PubKey_VerifyBytes pubKey (Vote_SignBytes va) (Reply_Signature a))
     then Returns (Some (Errorf
          "DuplicateVoteEvidence Error verifying VoteA: %v"
          [OpError ErrVoteInvalidSignature]))
     else if negb (PubKey_VerifyBytes pubKey (Vote_SignBytes vb) (Reply_Signature b))
     then Returns (Some (Errorf
          "DuplicateVoteEvidence Error verifying VoteB: %v"
          [OpError ErrVoteInvalidSignature]))
     else Returns None)%outcome.

(** The comma-ok assertion of [ev] to a pointer to DuplicateVoteEvidence. *)
Definition as_DuplicateVoteEvidence (ev : Evidence) : option DuplicateVoteEvidence :=
  match ev with
  | EvDuplicateVote d => Some d
  | _ => None
  end.

Definition DuplicateVoteEvidence_Equal (dve : DuplicateVoteEvidence) (ev : Evidence) : bool :=
  match as_DuplicateVoteEvidence ev with
  | None => false
  | Some _ =>
      (* just check their hashes *)
      let dveHash := aminoHasher_Hash (EvDuplicateVote dve) in
      let evHash := aminoHasher_Hash ev in
      bytes_Equal dveHash evHash
  end.

(** *** The mock variants *)

Definition NewMockGoodEvidence (height idx : Z) (address : bytes) : MockGoodEvidence :=
  {| Height_ := height; Address_ := address |}.

Definition MockGoodEvidence_Height (e : MockGoodEvidence) : Z := Height_ e.
Definition MockGoodEvidence_Address (e : MockGoodEvidence) : bytes := Address_ e.

Definition MockGoodEvidence_Hash (e : MockGoodEvidence) : bytes :=
  list_byte_of_string (sprintf_d (Height_ e) ++ "-" ++ sprintf_x (Address_ e))%string.

Definition MockGoodEvidence_Verify
  (e : MockGoodEvidence) (chainID : string) (pubKey : PubKey) : option error :=
  None.

(** The unchecked assertion [ev.(MockGoodEvidence)]. *)
Definition assert_MockGoodEvidence (ev : Evidence) : outcome MockGoodEvidence :=
  match ev with
  | EvMockGood e2 => Returns e2
  | _ => Panics TypeAssertion
  end.

Definition MockGoodEvidence_Equal (e : MockGoodEvidence) (ev : Evidence) : outcome bool :=
  (e2 <- assert_MockGoodEvidence ev ;;
   Returns ((Height_ e =? Height_ e2) && bytes_Equal (Address_ e) (Address_ e2)))%outcome.

Definition MockBadEvidence_Verify
  (e : MockBadEvidence) (chainID : string) (pubKey : PubKey) : option error :=
  Some (Errorf "MockBadEvidence" []).

(** The unchecked assertion [ev.(MockBadEvidence)]. *)
Definition assert_MockBadEvidence (ev : Evidence) : outcome MockBadEvidence :=
  match ev with
  | EvMockBad e2 => Returns e2
  | _ => Panics TypeAssertion
  end.

Definition MockBadEvidence_Equal (e : MockBadEvidence) (ev : Evidence) : outcome bool :=
  (e2 <- assert_MockBadEvidence ev ;;
   Returns ((Height_ (embedded e) =? Height_ (embedded e2))
            && bytes_Equal (Address_ (embedded e)) (Address_ (embedded e2))))%outcome.

(** *** Method calls through the interface *)

Definition Evidence_Height (ev : Evidence) : outcome Z :=
  match ev with
  | EvDuplicateVote d => DuplicateVoteEvidence_Height d
  | EvMockGood e => Returns (MockGoodEvidence_Height e)
  | EvMockBad e => Returns (MockGoodEvidence_Height (embedded e))
  end.

Definition Evidence_Address (ev : Evidence) : bytes :=
  match ev with
  | EvDuplicateVote d => DuplicateVoteEvidence_Address d
  | EvMockGood e => MockGoodEvidence_Address e
  | EvMockBad e => MockGoodEvidence_Address (embedded e)
  end.

Definition Evidence_Hash (ev : Evidence) : bytes :=
  match ev with
  | EvDuplicateVote d => DuplicateVoteEvidence_Hash d
  | EvMockGood e => MockGoodEvidence_Hash e
  | EvMockBad e => MockGoodEvidence_Hash (embedded e)
  end.

Definition Evidence_Verify (ev : Evidence) (chainID : string) (pubKey : PubKey)
  : outcome (option error) :=
  match ev with
  | EvDuplicateVote d => DuplicateVoteEvidence_Verify d chainID pubKey
  | EvMockGood e => Returns (MockGoodEvidence_Verify e chainID pubKey)
  | EvMockBad e => Returns (MockBadEvidence_Verify e chainID pubKey)
  end.

Definition Evidence_Equal (ev other : Evidence) : outcome bool :=
  match ev with
  | EvDuplicateVote d => Returns (DuplicateVoteEvidence_Equal d other)
  | EvMockGood e => MockGoodEvidence_Equal e other
  | EvMockBad e => MockBadEvidence_Equal e other
  end.

(** *** EvidenceList *)

(** The split point [(len(evl)+1)/2]. *)
Definition split_point (evl : EvidenceList) : nat := ((List.length evl + 1) / 2)%nat.

Equations? EvidenceList_Hash (evl : EvidenceList) : bytes by wf (List.length evl) lt :=
  EvidenceList_Hash [] := [];
  EvidenceList_Hash [ev] := Evidence_Hash ev;
  EvidenceList_Hash (ev0 :: ev1 :: rest) :=
    let evl := ev0 :: ev1 :: rest in
    let left := EvidenceList_Hash (firstn (split_point evl) evl) in
    let right := EvidenceList_Hash (skipn (split_point evl) evl) in
    SimpleHashFromTwoHashes left right.
Proof.
  all: subst evl; unfold split_point; cbn [List.length];
    pose proof (Nat.div_mod_eq (S (S (List.length rest)) + 1) 2);
    pose proof (Nat.mod_upper_bound (S (S (List.length rest)) + 1) 2 ltac:(lia)).
  - rewrite length_firstn. cbn [List.length]. lia.
  - rewrite length_skipn. cbn [List.length]. lia.
Qed.

Fixpoint EvidenceList_Has (evl : EvidenceList) (evidence : Evidence) : outcome bool :=
  match evl with
  | [] => Returns false
  | ev :: evl' =>
      (eq <- Evidence_Equal ev evidence ;;
       if eq then Returns true else EvidenceList_Has evl' evidence)%outcome
  end.

(** *** MockPV *)

Definition MockPV_GetPubKey (pv : MockPV) : PubKey := PrivKey_PubKey (privKey pv).

Definition MockPV_GetAddress (pv : MockPV) : bytes :=
  PubKey_Address (PrivKey_PubKey (privKey pv)).

(** [SignVote] reads through its pointer and returns the reply by value;
    on a signing error Go returns the zero reply next to the error, here
    the error alone. *)
Definition MockPV_SignVote (pv : MockPV) : St Vote (SignVoteReply + error) :=
  (vote <- sget ;;
   let signBytes := Vote_SignBytes vote in
   match PrivKey_Sign (privKey pv) signBytes with
   | inr err => sret (inr err)
   | inl sig => sret (inl {| Reply_Vote := vote; Reply_Signature := sig |})
   end)%st.

Definition set_Proposal_Signature (sig : bytes) (p : Proposal) : Proposal :=
  {| Proposal_Signature := sig; Proposal_other := Proposal_other p |}.

Definition MockPV_SignProposal (pv : MockPV) (chainID : string) : St Proposal (option error) :=
  (proposal <- sget ;;
   let signBytes := Proposal_SignBytes proposal chainID in
   match PrivKey_Sign (privKey pv) signBytes with
   | inr err => sret (Some err)
   | inl sig => (sput (set_Proposal_Signature sig proposal) ;;; sret None)
   end)%st.

Definition set_Heartbeat_Signature (sig : bytes) (h : Heartbeat) : Heartbeat :=
  {| Heartbeat_Signature := sig; Heartbeat_other := Heartbeat_other h |}.

Definition MockPV_SignHeartbeat (pv : MockPV) (chainID : string) : St Heartbeat (option error) :=
  (heartbeat <- sget ;;
   match PrivKey_Sign (privKey pv) (Heartbeat_SignBytes heartbeat chainID) with
   | inr err => sret (Some err)
   | inl sig => (sput (set_Heartbeat_Signature sig heartbeat) ;;; sret None)
   end)%st.

End Operations.

(** ** The verification algorithm as the specification words it

    Six checks, tried in order; the first one that fails decides the
    error.  The sixth check has two parts, one per vote. *)

Section VerificationSpec.
Context {C : Collaborators} {X : External}.

Definition check_HRS (a b : SignVoteReply) : bool :=
  (Vote_Height (Reply_Vote a) =? Vote_Height (Reply_Vote b))
  && (Vote_Round (Reply_Vote a) =? Vote_Round (Reply_Vote b))
  && (Vote_Type (Reply_Vote a) =? Vote_Type (Reply_Vote b)).

Definition check_address (a b : SignVoteReply) : bool :=
  bytes_Equal (Vote_ValidatorAddress (Reply_Vote a)) (Vote_ValidatorAddress (Reply_Vote b)).

Definition check_index (a b : SignVoteReply) : bool :=
  Vote_ValidatorIndex (Reply_Vote a) =? Vote_ValidatorIndex (Reply_Vote b).

Definition check_blocks_differ (a b : SignVoteReply) : bool :=
  negb (BlockID_Equals (Vote_BlockID (Reply_Vote a)) (Vote_BlockID (Reply_Vote b))).

Definition check_pubkey (pubKey : PubKey) (a : SignVoteReply) : bool :=
  bytes_Equal (PubKey_Address pubKey) (Vote_ValidatorAddress (Reply_Vote a)).

Definition check_signature (pubKey : PubKey) (r : SignVoteReply) : bool :=
  PubKey_VerifyBytes pubKey (Vote_SignBytes (Reply_Vote r)) (Reply_Signature r).

(** The checks in the order of the specification, each with the error that
    reports its failure. *)
Definition verify_checks (a b : SignVoteReply) (pubKey : PubKey) : list (bool * error) :=
  let va := Reply_Vote a in
  let vb := Reply_Vote b in
  [ (check_HRS a b,
     Errorf "DuplicateVoteEvidence Error: H/R/S does not match. Got %v and %v"
            [OpReply (Some a); OpReply (Some b)]);
    (check_address a b,
     Errorf "DuplicateVoteEvidence Error: Validator addresses do not match. Got %X and %X"
            [OpBytes (Vote_ValidatorAddress va); OpBytes (Vote_ValidatorAddress vb)]);
    (check_index a b,
     Errorf "DuplicateVoteEvidence Error: Validator indices do not match. Got %d and %d"
            [OpInt (Vote_ValidatorIndex va); OpInt (Vote_ValidatorIndex vb)]);
    (check_blocks_differ a b,
     Errorf "DuplicateVoteEvidence Error: BlockIDs are the same (%v) - not a real duplicate vote"
            [OpBlockID (Vote_BlockID va)]);
    (check_pubkey pubKey a,
     Errorf "DuplicateVoteEvidence FAILED SANITY CHECK - address (%X) doesn't match pubkey (%v - %X)"
            [OpBytes (Vote_ValidatorAddress va); OpPubKey pubKey; OpBytes (PubKey_Address pubKey)]);
    (check_signature pubKey a,
     Errorf "DuplicateVoteEvidence Error verifying VoteA: %v" [OpError ErrVoteInvalidSignature]);
    (check_signature pubKey b,
     Errorf "DuplicateVoteEvidence Error verifying VoteB: %v" [OpError ErrVoteInvalidSignature]) ].

(** Fail fast: the error of the first check that does not hold. *)
Fixpoint first_violation (checks : list (bool * error)) : option error :=
  match checks with
  | [] => None
  | (true, _) :: rest => first_violation rest
  | (false, e) :: _ => Some e
  end.

(** An error is the evidence-plus-cause wrapper around [ev]. *)
Definition wraps (ev : Evidence) (e : error) : Prop :=
  exists cause, e = ErrEvidenceInvalid ev cause.

End VerificationSpec.

(** ** The rest of the two files

    The [String] methods of the evidence file and the sort interface
    [PrivValidatorsByAddress] of [priv_validator.go]. *)

(** [bytes.Compare]: -1, 0 or +1 by the lexicographic order on unsigned
    bytes. *)
Fixpoint bytes_Compare (a b : bytes) : Z :=
  match a, b with
  | [], [] => 0
  | [], _ :: _ => -1
  | _ :: _, [] => 1
  | x :: a', y :: b' =>
      match N.compare (Byte.to_N x) (Byte.to_N y) with
      | Lt => -1
      | Gt => 1
      | Eq => bytes_Compare a' b'
      end
  end.

(** Reading [s[i]] with a Go [int]; [None] is the run-time panic "index
    out of range". *)
Definition index {A : Type} (s : list A) (i : Z) : option A :=
  if i <? 0 then None else nth_error s (Z.to_nat i).

(** The assignment [s[n] = v] for an index in range. *)
Fixpoint store {A : Type} (s : list A) (n : nat) (v : A) : list A :=
  match s, n with
  | [], _ => []
  | _ :: s', O => v :: s'
  | x :: s', S n' => x :: store s' n' v
  end.

(** The value of a hexadecimal digit, to read back the output of [%x]. *)
Definition hex_value (c : ascii) : N :=
  match c with
  | "0" => 0 | "1" => 1 | "2" => 2 | "3" => 3
  | "4" => 4 | "5" => 5 | "6" => 6 | "7" => 7
  | "8" => 8 | "9" => 9 | "a" => 10 | "b" => 11
  | "c" => 12 | "d" => 13 | "e" => 14 | "f" => 15
  | _ => 0
  end%char%N.

(** A string without the separator of the mock hash. *)
Fixpoint no_dash (s : string) : bool :=
  match s with
  | EmptyString => true
  | String c s' => negb (Ascii.eqb c "-") && no_dash s'
  end.

(** The verb [%v] on a pointer to SignVoteReply, whose rendering is decided
    outside these files. *)
Class Rendering {C : Collaborators} : Type := {
  render_SignVoteReply : option SignVoteReply -> string
}.

Section MoreOperations.
Context {C : Collaborators} {X : External} {R : Rendering}.

(** *** String methods *)

Definition tabs : string := String "009" (String "009" EmptyString).

Definition DuplicateVoteEvidence_String (dve : DuplicateVoteEvidence) : string :=
  ("VoteA: " ++ render_SignVoteReply (VoteA dve)
   ++ "; VoteB: " ++ render_SignVoteReply (VoteB dve))%string.

(** [%s] on a byte slice writes its bytes. *)
Definition MockGoodEvidence_String (e : MockGoodEvidence) : string :=
  ("GoodEvidence: " ++ sprintf_d (Height_ e) ++ "/"
   ++ string_of_list_byte (Address_ e))%string.

Definition MockBadEvidence_String (e : MockBadEvidence) : string :=
  ("BadEvidence: " ++ sprintf_d (Height_ (embedded e)) ++ "/"
   ++ string_of_list_byte (Address_ (embedded e)))%string.

Definition Evidence_String (ev : Evidence) : string :=
  match ev with
  | EvDuplicateVote d => DuplicateVoteEvidence_String d
  | EvMockGood e => MockGoodEvidence_String e
  | EvMockBad e => MockBadEvidence_String e
  end.

(** The loop [for _, e := range evl { s += fmt.Sprintf("%s\t\t", e) }]. *)
Definition EvidenceList_String (evl : EvidenceList) : string :=
  fold_left (fun s e => (s ++ (Evidence_String e ++ tabs))%string) evl EmptyString.

(** *** Variants *)

Definition is_DuplicateVote (ev : Evidence) : bool :=
  match ev with EvDuplicateVote _ => true | _ => false end.

Definition is_MockGood (ev : Evidence) : bool :=
  match ev with EvMockGood _ => true | _ => false end.

(** *** PrivValidatorsByAddress *)

(** A value of interface type [PrivValidator]; [MockPV], behind its
    pointer, is the implementation in these files. *)
Inductive PrivValidator : Type :=
| PVMock (pv : MockPV).

Definition PrivValidator_GetAddress (pv : PrivValidator) : bytes :=
  match pv with
  | PVMock m => MockPV_GetAddress m
  end.

Definition PrivValidatorsByAddress : Type := list PrivValidator.

Definition PrivValidatorsByAddress_Len (pvs : PrivValidatorsByAddress) : Z :=
  Z.of_nat (List.length pvs).

Definition PrivValidatorsByAddress_Less (pvs : PrivValidatorsByAddress) (i j : Z)
  : option bool :=
  match index pvs i with
  | None => None
  | Some a =>
      match index pvs j with
      | None => None
      | Some b =>
          Some (bytes_Compare (PrivValidator_GetAddress a) (PrivValidator_GetAddress b)
                =? -1)
      end
  end.

(** [Swap] writes through the slice; the elements are the state.  A panic
    happens before the first write. *)
Definition PrivValidatorsByAddress_Swap (i j : Z)
  : St PrivValidatorsByAddress (option unit) :=
  (pvs <- sget ;;
   match index pvs i with
   | None => sret None
   | Some it =>
       match index pvs j with
       | None => sret None
       | Some at_j =>
           (sput (store (store pvs (Z.to_nat i) at_j) (Z.to_nat j) it) ;;;
            sret (Some tt))
       end
   end)%st.

End MoreOperations.

(** ** A small executable instance of the collaborators

    Used to run the definitions on concrete inputs.  Keys are byte strings,
    a signature is the key followed by the message, a vote carries its
    chain identifier among its other fields and binds it into its
    sign-bytes, and the two-hash combination prefixes the left hash with
    its length in unary. *)

Module Reference.

Definition ascii_bytes (s : string) : bytes := list_byte_of_string s.

#[export] Instance collaborators : Collaborators := {|
  PubKey := bytes;
  PrivKey := bytes;
  BlockID := bytes;
  VoteOther := string;
  ProposalOther := bytes;
  HeartbeatOther := bytes
|}.

Definition sign (sk msg : bytes) : bytes + error :=
  match sk with
  | [] => inr (Errorf "no key" [])
  | _ => inl (sk ++ msg)
  end.

Definition vote_sign_bytes (v : Vote) : bytes :=
  ascii_bytes (Vote_other v ++ "/" ++ sprintf_d (Vote_Height v) ++ "/"
               ++ sprintf_d (Vote_Round v) ++ "/" ++ sprintf_d (Vote_Type v) ++ "/")%string
  ++ Vote_BlockID v.

Definition amino_hash (ev : Evidence) : bytes :=
  match ev with
  | EvDuplicateVote d =>
      dve_PubKey d
      ++ match VoteA d with Some a => Reply_Signature a | None => [] end
      ++ match VoteB d with Some b => Reply_Signature b | None => [] end
  | EvMockGood e => Address_ e
  | EvMockBad e => Address_ (embedded e)
  end.

Definition two_hashes (l r : bytes) : bytes :=
  repeat "1"%byte (List.length l) ++ "0"%byte :: l ++ r.

#[export] Instance external : External := {|
  PubKey_Address := fun k => k;
  PubKey_VerifyBytes := fun k msg sig => bytes_Equal sig (k ++ msg);
  PrivKey_PubKey := fun sk => sk;
  PrivKey_Sign := sign;
  BlockID_Equals := bytes_Equal;
  Vote_SignBytes := vote_sign_bytes;
  Proposal_SignBytes := fun p chainID => ascii_bytes chainID ++ Proposal_other p;
  Heartbeat_SignBytes := fun h chainID => ascii_bytes chainID ++ Heartbeat_other h;
  aminoHasher_Hash := amino_hash;
  SimpleHashFromTwoHashes := two_hashes;
  ErrVoteInvalidSignature := Errorf "Invalid signature" []
|}.

(** Validator V and two prevotes at height 5, round 0, for blocks X and Y,
    both made for the chain "chain-A". *)
Definition V : MockPV := {| privKey := ascii_bytes "V" |}.

Definition vote_for (block : string) : Vote := {|
  Vote_Height := 5;
  Vote_Round := 0;
  Vote_Type := 1;
  Vote_ValidatorAddress := ascii_bytes "V";
  Vote_ValidatorIndex := 0;
  Vote_BlockID := ascii_bytes block;
  Vote_other := "chain-A"%string
|}.

(** The reply of [SignVote], as the pointer stored in the evidence (nil if
    signing failed). *)
Definition signed (pv : MockPV) (vote : Vote) : option SignVoteReply :=
  match snd (MockPV_SignVote pv vote) with
  | inl reply => Some reply
  | inr _ => None
  end.

Definition equivocation : DuplicateVoteEvidence := {|
  dve_PubKey := MockPV_GetPubKey V;
  VoteA := signed V (vote_for "X");
  VoteB := signed V (vote_for "Y")
|}.

(** The vote for X reported twice: no equivocation. *)
Definition same_vote_twice : DuplicateVoteEvidence := {|
  dve_PubKey := MockPV_GetPubKey V;
  VoteA := signed V (vote_for "X");
  VoteB := signed V (vote_for "X")
|}.

(** Two votes that disagree on the height: not evidence, never verified. *)
Definition mismatched_heights : DuplicateVoteEvidence := {|
  dve_PubKey := MockPV_GetPubKey V;
  VoteA := signed V (vote_for "X");
  VoteB := signed V {| Vote_Height := 6;
                       Vote_Round := 0;
                       Vote_Type := 1;
                       Vote_ValidatorAddress := ascii_bytes "V";
                       Vote_ValidatorIndex := 0;
                       Vote_BlockID := ascii_bytes "Y";
                       Vote_other := "chain-A"%string |}
|}.

Definition good (h : Z) (addr : string) : Evidence :=
  EvMockGood (NewMockGoodEvidence h 0 (ascii_bytes addr)).

Definition bad (h : Z) (addr : string) : Evidence :=
  EvMockBad {| embedded := NewMockGoodEvidence h 0 (ascii_bytes addr) |}.

Definition a_proposal : Proposal :=
  {| Proposal_Signature := []; Proposal_other := ascii_bytes "proposal" |}.

Definition a_heartbeat : Heartbeat :=
  {| Heartbeat_Signature := []; Heartbeat_other := ascii_bytes "heartbeat" |}.

#[export] Instance rendering : Rendering := {|
  render_SignVoteReply := fun r =>
    match r with
    | None => "<nil>"%string
    | Some reply => string_of_list_byte (Reply_Signature reply)
    end
|}.


(** Three validators, out of order. *)
Definition validators : PrivValidatorsByAddress :=
  [ PVMock {| privKey := ascii_bytes "W" |};
    PVMock V;
    PVMock {| privKey := ascii_bytes "U" |} ].

(** A proposal whose sign-bytes do not cover the signature, as in the
    instance. *)
Definition signed_proposal : Proposal :=
  fst (MockPV_SignProposal V "chain-A" a_proposal).


End Reference.


(** * Properties *)

(** ** Byte slices and the fail-fast search *)

Lemma bytes_Equal_true (a b : bytes) : bytes_Equal a b = true <-> a = b.
Proof.
  revert b; induction a as [|x a IH]; intros [|y b]; cbn; split; intro H;
    try reflexivity; try discriminate.
  - apply andb_true_iff in H as [Hx Hab].
    apply Byte.byte_dec_bl in Hx. apply IH in Hab. congruence.
  - injection H as -> ->. apply andb_true_iff; split.
    + now apply Byte.byte_dec_lb.
    + now apply IH.
Qed.

Lemma bytes_Equal_false (a b : bytes) : bytes_Equal a b = false <-> a <> b.
Proof.
  rewrite <- bytes_Equal_true. destruct (bytes_Equal a b); split; congruence.
Qed.

Section Properties.
Context {C : Collaborators} {X : External}.

(** [first_violation] returns [e] exactly when some check fails with [e]
    and every check before it holds. *)
Lemma first_violation_Some (checks : list (bool * error)) (e : error) :
  first_violation checks = Some e <->
  exists i, nth_error checks i = Some (false, e)
            /\ forall j c, (j < i)%nat -> nth_error checks j = Some c -> fst c = true.
Proof.
  induction checks as [|[[|] e0] rest IH]; cbn.
  - split; [discriminate | intros [[|i] [H _]]; discriminate].
  - rewrite IH. split.
    + intros [i [Hi Hbefore]]. exists (S i). split; [exact Hi|].
      intros [|j] c Hj Hc; cbn in Hc.
      * now injection Hc as <-.
      * apply (Hbefore j); [lia | exact Hc].
    + intros [[|i] [Hi Hbefore]]; cbn in Hi; [discriminate|].
      exists i. split; [exact Hi|].
      intros j c Hj Hc. apply (Hbefore (S j)); [lia | exact Hc].
  - split.
    + intros [= ->]. exists 0%nat. split; [reflexivity | intros; lia].
    + intros [[|i] [Hi Hbefore]]; cbn in Hi.
      * congruence.
      * specialize (Hbefore 0%nat (false, e0) ltac:(lia) eq_refl). discriminate.
Qed.

Lemma first_violation_None (checks : list (bool * error)) :
  first_violation checks = None <-> forallb fst checks = true.
Proof.
  induction checks as [|[[|] e0] rest IH]; cbn.
  - tauto.
  - exact IH.
  - split; discriminate.
Qed.

(** The code of [Verify] is the fail-fast search over [verify_checks]. *)
Lemma Verify_first_violation (pk : PubKey) (a b : SignVoteReply)
  (chainID : string) (pubKey : PubKey) :
  DuplicateVoteEvidence_Verify
    {| dve_PubKey := pk; VoteA := Some a; VoteB := Some b |} chainID pubKey
  = Returns (first_violation (verify_checks a b pubKey)).
Proof.
  unfold DuplicateVoteEvidence_Verify, verify_checks, first_violation,
    check_HRS, check_address, check_index, check_blocks_differ, check_pubkey,
    check_signature; cbn.
  destruct (Vote_Height (Reply_Vote a) =? Vote_Height (Reply_Vote b)); cbn; [|reflexivity].
  destruct (Vote_Round (Reply_Vote a) =? Vote_Round (Reply_Vote b)); cbn; [|reflexivity].
  destruct (Vote_Type (Reply_Vote a) =? Vote_Type (Reply_Vote b)); cbn; [|reflexivity].
  destruct (bytes_Equal (Vote_ValidatorAddress (Reply_Vote a)) _); cbn; [|reflexivity].
  destruct (Vote_ValidatorIndex (Reply_Vote a) =? _); cbn; [|reflexivity].
  destruct (BlockID_Equals _ _); cbn; [reflexivity|].
  destruct (bytes_Equal (PubKey_Address pubKey) _); cbn; [|reflexivity].
  destruct (PubKey_VerifyBytes pubKey (Vote_SignBytes (Reply_Vote a)) _); cbn; [|reflexivity].
  destruct (PubKey_VerifyBytes pubKey (Vote_SignBytes (Reply_Vote b)) _); reflexivity.
Qed.

(** The seven errors of [Verify] are pairwise different. *)
Lemma verify_errors_distinct (a b : SignVoteReply) (pubKey : PubKey) :
  NoDup (map snd (verify_checks a b pubKey)).
Proof.
  unfold verify_checks; cbn [map snd].
  repeat (constructor; [cbn [In]; intuition discriminate|]).
  constructor.
Qed.

(** A vote pointer that is nil makes [Verify] and, for [VoteA], [Height]
    panic. *)
Lemma Verify_nil_vote (dve : DuplicateVoteEvidence) (chainID : string) (pubKey : PubKey) :
  VoteA dve = None \/ VoteB dve = None ->
  DuplicateVoteEvidence_Verify dve chainID pubKey = Panics NilDereference.
Proof.
  unfold DuplicateVoteEvidence_Verify.
  intros [H|H]; rewrite H; cbn; [reflexivity|].
  destruct (VoteA dve); reflexivity.
Qed.

(** C1: for every DuplicateVoteEvidence holding two votes and every chain
    identifier and public key, Verify runs the six checks in the order
    H/R/S, validator address, validator index, different block identifiers,
    public key against voteA's address, signature of voteA and then of
    voteB; it returns the error of the first check that fails, the errors
    of the checks are pairwise different, and it returns success if and
    only if all six checks hold. *)
Theorem Verify_six_checks_in_order :
  forall (pk : PubKey) (a b : SignVoteReply) (chainID : string) (pubKey : PubKey),
    let dve := {| dve_PubKey := pk; VoteA := Some a; VoteB := Some b |} in
    let checks := verify_checks a b pubKey in
    DuplicateVoteEvidence_Verify dve chainID pubKey = Returns (first_violation checks)
    /\ map fst checks =
         [ check_HRS a b; check_address a b; check_index a b;
           check_blocks_differ a b; check_pubkey pubKey a;
           check_signature pubKey a; check_signature pubKey b ]
    /\ (forall e,
          DuplicateVoteEvidence_Verify dve chainID pubKey = Returns (Some e) <->
          exists i, nth_error checks i = Some (false, e)
                    /\ forall j c, (j < i)%nat -> nth_error checks j = Some c -> fst c = true)
    /\ NoDup (map snd checks)
    /\ (DuplicateVoteEvidence_Verify dve chainID pubKey = Returns None <->
          check_HRS a b = true /\ check_address a b = true
          /\ check_index a b = true /\ check_blocks_differ a b = true
          /\ check_pubkey pubKey a = true
          /\ (check_signature pubKey a = true /\ check_signature pubKey b = true)).
Proof.
  intros pk a b chainID pubKey dve checks.
  assert (HV := Verify_first_violation pk a b chainID pubKey).
  fold dve checks in HV.
  split; [exact HV|]. split; [reflexivity|]. split; [|split].
  - intro e. rewrite HV. rewrite <- first_violation_Some.
    split; [intros [= H]; exact H | intros ->; reflexivity].
  - apply verify_errors_distinct.
  - rewrite HV. transitivity (first_violation checks = None).
    { split; [intros [= H]; exact H | intros ->; reflexivity]. }
    rewrite first_violation_None. subst checks. unfold verify_checks.
    cbn [forallb fst]. rewrite !andb_true_iff. tauto.
Qed.

(** ** The chain identifier *)

(** C2 (as amended): the result of Verify does not depend on its chain
    identifier argument; the signature checks are over [Vote.SignBytes()],
    which takes no chain identifier, so evidence that verifies under one
    chain identifier verifies under every other. *)
Theorem Verify_ignores_chainID :
  forall (dve : DuplicateVoteEvidence) (chainID chainID' : string) (pubKey : PubKey),
    DuplicateVoteEvidence_Verify dve chainID pubKey
    = DuplicateVoteEvidence_Verify dve chainID' pubKey.
Proof.
  intros dve chainID chainID' pubKey.
  unfold DuplicateVoteEvidence_Verify. reflexivity.
Qed.

(** ** The error wrapper *)

Lemma verify_checks_Errorf (a b : SignVoteReply) (pubKey : PubKey) (e : error) :
  first_violation (verify_checks a b pubKey) = Some e ->
  exists format operands, e = Errorf format operands.
Proof.
  unfold verify_checks, first_violation.
  repeat match goal with
         | |- context [if ?c then _ else _] => destruct c
         | |- context [match ?c with true => _ | false => _ end] => destruct c
         end;
    intros [= <-]; eauto.
Qed.

Lemma Evidence_Verify_Errorf (ev : Evidence) (chainID : string) (pubKey : PubKey) (e : error) :
  Evidence_Verify ev chainID pubKey = Returns (Some e) ->
  exists format operands, e = Errorf format operands.
Proof.
  destruct ev as [[pk [a|] [b|]]|g|m]; cbn [Evidence_Verify].
  - rewrite Verify_first_violation. intros [= H].
    now apply verify_checks_Errorf in H.
  - discriminate.
  - discriminate.
  - discriminate.
  - discriminate.
  - intros [= <-]. eauto.
Qed.

(** C3 (as amended): when verification of an Evidence fails, Verify returns
    the bare cause, an error made by [fmt.Errorf] that is not the
    evidence-plus-cause wrapper; the wrapper is built apart from Verify by
    [NewEvidenceInvalidErr], and it carries exactly the Evidence and the
    cause it is given. *)
Theorem Verify_failure_is_bare_cause :
  forall (ev : Evidence) (chainID : string) (pubKey : PubKey) (e : error),
    Evidence_Verify ev chainID pubKey = Returns (Some e) ->
    (exists format operands, e = Errorf format operands)
    /\ ~ wraps ev e
    /\ wrapped_Evidence (NewEvidenceInvalidErr ev e) = Some ev
    /\ wrapped_ErrorValue (NewEvidenceInvalidErr ev e) = Some e
    /\ wraps ev (NewEvidenceInvalidErr ev e).
Proof.
  intros ev chainID pubKey e H.
  destruct (Evidence_Verify_Errorf _ _ _ _ H) as [format [operands ->]].
  split; [eauto|]. split; [intros [cause Hc]; discriminate|].
  split; [reflexivity|]. split; [reflexivity|].
  now exists (Errorf format operands).
Qed.

(** ** The list hash *)

Lemma EvidenceList_Hash_pair (a b : Evidence) :
  EvidenceList_Hash [a; b] = SimpleHashFromTwoHashes (Evidence_Hash a) (Evidence_Hash b).
Proof. reflexivity. Qed.

Lemma split_point_bounds (evl : EvidenceList) :
  (2 <= List.length evl)%nat ->
  (1 <= split_point evl)%nat /\ (split_point evl < List.length evl)%nat.
Proof.
  unfold split_point. intro H.
  pose proof (Nat.div_mod_eq (List.length evl + 1) 2).
  pose proof (Nat.mod_upper_bound (List.length evl + 1) 2 ltac:(lia)).
  lia.
Qed.

Lemma EvidenceList_Hash_split (evl : EvidenceList) :
  (2 <= List.length evl)%nat ->
  EvidenceList_Hash evl
  = SimpleHashFromTwoHashes (EvidenceList_Hash (firstn (split_point evl) evl))
                            (EvidenceList_Hash (skipn (split_point evl) evl)).
Proof.
  destruct evl as [|ev0 [|ev1 rest]]; cbn [List.length]; intro H; try lia.
  now simp EvidenceList_Hash.
Qed.

(** C4: the hash of an EvidenceList is the empty marker for length 0, the
    hash of the single element for length 1, and otherwise the two-hash
    combination of the hash of the first (n+1)/2 elements with the hash of
    the remaining ones; both parts are shorter than the list and not
    empty. *)
Theorem EvidenceList_Hash_cases :
  forall evl : EvidenceList,
    (List.length evl = 0%nat -> EvidenceList_Hash evl = [])
    /\ (forall ev, evl = [ev] -> EvidenceList_Hash evl = Evidence_Hash ev)
    /\ (List.length evl = 1%nat -> exists ev, evl = [ev])
    /\ ((2 <= List.length evl)%nat ->
        let k := ((List.length evl + 1) / 2)%nat in
        EvidenceList_Hash evl
        = SimpleHashFromTwoHashes (EvidenceList_Hash (firstn k evl))
                                  (EvidenceList_Hash (skipn k evl))
        /\ firstn k evl ++ skipn k evl = evl
        /\ List.length (firstn k evl) = k
        /\ (1 <= k)%nat /\ (k < List.length evl)%nat).
Proof.
  intro evl. split; [|split; [|split]].
  - destruct evl; [reflexivity | discriminate].
  - intros ev ->. now simp EvidenceList_Hash.
  - destruct evl as [|ev0 [|ev1 rest]]; try discriminate. now exists ev0.
  - intros H k.
    destruct (split_point_bounds evl H) as [Hlo Hhi].
    unfold split_point in Hlo, Hhi. subst k.
    split; [|split; [|split; [|split]]].
    + exact (EvidenceList_Hash_split evl H).
    + apply firstn_skipn.
    + apply firstn_length_le. lia.
    + exact Hlo.
    + exact Hhi.
Qed.

(** ** Equality of evidence *)

(** C5: Equal of a DuplicateVoteEvidence returns false when the argument's
    concrete variant is not DuplicateVoteEvidence, and otherwise returns
    true if and only if the two hashes are byte-equal. *)
Theorem DuplicateVoteEvidence_Equal_by_hash :
  forall (dve : DuplicateVoteEvidence) (ev : Evidence),
    ((forall d, ev <> EvDuplicateVote d) ->
     DuplicateVoteEvidence_Equal dve ev = false)
    /\ (forall d, ev = EvDuplicateVote d ->
        (DuplicateVoteEvidence_Equal dve ev = true <->
         DuplicateVoteEvidence_Hash dve = Evidence_Hash ev)).
Proof.
  intros dve ev. split.
  - intro Hvariant. destruct ev as [d|g|m]; try reflexivity.
    now elim (Hvariant d).
  - intros d ->. unfold DuplicateVoteEvidence_Equal.
    cbn [as_DuplicateVoteEvidence Evidence_Hash].
    unfold DuplicateVoteEvidence_Hash. apply bytes_Equal_true.
Qed.

(** C9: Equal of either mock variant returns only when the argument has the
    same concrete variant, with the comparison of height and address; on
    an argument of any other concrete variant the unchecked type assertion
    panics, and no boolean is returned. *)
Theorem mock_Equal_panics_on_other_variant :
  forall (g : MockGoodEvidence) (m : MockBadEvidence) (ev : Evidence),
    (forall g2, ev = EvMockGood g2 ->
       MockGoodEvidence_Equal g ev
       = Returns ((Height_ g =? Height_ g2) && bytes_Equal (Address_ g) (Address_ g2)))
    /\ ((forall g2, ev <> EvMockGood g2) ->
        MockGoodEvidence_Equal g ev = Panics TypeAssertion)
    /\ (forall m2, ev = EvMockBad m2 ->
       MockBadEvidence_Equal m ev
       = Returns ((Height_ (embedded m) =? Height_ (embedded m2))
                  && bytes_Equal (Address_ (embedded m)) (Address_ (embedded m2))))
    /\ ((forall m2, ev <> EvMockBad m2) ->
        MockBadEvidence_Equal m ev = Panics TypeAssertion)
    /\ (forall r, MockGoodEvidence_Equal g ev = Returns r -> exists g2, ev = EvMockGood g2)
    /\ (forall r, MockBadEvidence_Equal m ev = Returns r -> exists m2, ev = EvMockBad m2).
Proof.
  intros g m ev. repeat split.
  - now intros g2 ->.
  - intro H. destruct ev as [d|g2|m2]; try reflexivity. now elim (H g2).
  - now intros m2 ->.
  - intro H. destruct ev as [d|g2|m2]; try reflexivity. now elim (H m2).
  - intros r. destruct ev as [d|g2|m2]; cbn; try discriminate. eauto.
  - intros r. destruct ev as [d|g2|m2]; cbn; try discriminate. eauto.
Qed.

(** ** In-place signing *)

(** C8: SignVote leaves the vote behind its pointer unchanged and returns a
    reply holding a copy of the vote and the signature made over its
    sign-bytes (or the signing error); SignProposal and SignHeartbeat
    change nothing but the Signature field of their argument, which
    receives the signature made over the sign-bytes, and change nothing at
    all when signing fails. *)
Theorem signing_frame :
  forall (pv : MockPV) (chainID : string)
         (vote : Vote) (proposal : Proposal) (heartbeat : Heartbeat),
    (fst (MockPV_SignVote pv vote) = vote
     /\ snd (MockPV_SignVote pv vote)
        = match PrivKey_Sign (privKey pv) (Vote_SignBytes vote) with
          | inl sig => inl {| Reply_Vote := vote; Reply_Signature := sig |}
          | inr err => inr err
          end)
    /\ (Proposal_other (fst (MockPV_SignProposal pv chainID proposal))
        = Proposal_other proposal
        /\ MockPV_SignProposal pv chainID proposal
           = match PrivKey_Sign (privKey pv) (Proposal_SignBytes proposal chainID) with
             | inl sig => ({| Proposal_Signature := sig;
                              Proposal_other := Proposal_other proposal |}, None)
             | inr err => (proposal, Some err)
             end)
    /\ (Heartbeat_other (fst (MockPV_SignHeartbeat pv chainID heartbeat))
        = Heartbeat_other heartbeat
        /\ MockPV_SignHeartbeat pv chainID heartbeat
           = match PrivKey_Sign (privKey pv) (Heartbeat_SignBytes heartbeat chainID) with
             | inl sig => ({| Heartbeat_Signature := sig;
                              Heartbeat_other := Heartbeat_other heartbeat |}, None)
             | inr err => (heartbeat, Some err)
             end).
Proof.
  intros pv chainID vote proposal heartbeat.
  unfold MockPV_SignVote, MockPV_SignProposal, MockPV_SignHeartbeat,
    sbind, sget, sput, sret, set_Proposal_Signature, set_Heartbeat_Signature.
  repeat split.
  - now destruct (PrivKey_Sign _ _).
  - now destruct (PrivKey_Sign _ _).
  - now destruct (PrivKey_Sign _ _).
  - now destruct (PrivKey_Sign _ _).
  - now destruct (PrivKey_Sign _ _).
  - now destruct (PrivKey_Sign _ _).
Qed.

(** ** Height and address *)

(** C10: Height of a DuplicateVoteEvidence is voteA's height whatever voteB
    is, Address is the address of the stored public key whatever the votes
    are, and neither runs Verify: when the two votes disagree on height,
    Verify rejects the evidence and Height still returns voteA's height. *)
Theorem Height_and_Address_unconditional :
  forall (pk : PubKey) (a : SignVoteReply) (voteA voteB : option SignVoteReply),
    DuplicateVoteEvidence_Height {| dve_PubKey := pk; VoteA := Some a; VoteB := voteB |}
    = Returns (Vote_Height (Reply_Vote a))
    /\ DuplicateVoteEvidence_Address {| dve_PubKey := pk; VoteA := voteA; VoteB := voteB |}
       = PubKey_Address pk
    /\ (forall (b : SignVoteReply) (chainID : string) (pubKey : PubKey),
          Vote_Height (Reply_Vote a) <> Vote_Height (Reply_Vote b) ->
          let dve := {| dve_PubKey := pk; VoteA := Some a; VoteB := Some b |} in
          DuplicateVoteEvidence_Verify dve chainID pubKey
          = Returns (Some (Errorf
              "DuplicateVoteEvidence Error: H/R/S does not match. Got %v and %v"
              [OpReply (Some a); OpReply (Some b)]))
          /\ DuplicateVoteEvidence_Height dve = Returns (Vote_Height (Reply_Vote a))).
Proof.
  intros pk a voteA voteB. split; [reflexivity|]. split; [reflexivity|].
  intros b chainID pubKey Hne dve. split; [|reflexivity].
  subst dve. rewrite Verify_first_violation.
  unfold verify_checks, check_HRS. cbn [first_violation].
  apply Z.eqb_neq in Hne. rewrite Hne. reflexivity.
Qed.

End Properties.

(** ** The size ceiling *)

(** C7: for every non-negative blockMaxBytes the per-block ceiling is
    blockMaxBytes divided by 10, rounded down; for 10000 it is 1000. *)
Theorem MaxEvidenceBytesPerBlock_tenth :
  forall blockMaxBytes : Z,
    0 <= blockMaxBytes ->
    MaxEvidenceBytesPerBlock blockMaxBytes = blockMaxBytes / 10
    /\ MaxEvidenceBytesPerBlock 10000 = 1000.
Proof.
  intros n Hn. split; [|reflexivity].
  unfold MaxEvidenceBytesPerBlock. apply Z.quot_div_nonneg; lia.
Qed.

(** * Further properties of the two files *)

(** ** Hexadecimal and decimal output *)

Lemma hex_digits_read_back (x : byte) :
  Byte.of_N (hex_value (hex_digit (N.div (Byte.to_N x) 16)) * 16
             + hex_value (hex_digit (N.modulo (Byte.to_N x) 16)))%N = Some x.
Proof. destruct x; reflexivity. Qed.

Lemma hex_digit_not_dash (n : N) : Ascii.eqb (hex_digit n) "-" = false.
Proof.
  destruct n as [|p]; [reflexivity|].
  do 4 (destruct p as [p|p|]; try reflexivity).
Qed.

Lemma sprintf_x_no_dash (b : bytes) : no_dash (sprintf_x b) = true.
Proof.
  induction b as [|x b IH]; [reflexivity|].
  cbn [sprintf_x no_dash]. now rewrite !hex_digit_not_dash, IH.
Qed.

Lemma sprintf_x_inj (b b' : bytes) : sprintf_x b = sprintf_x b' -> b = b'.
Proof.
  revert b'. induction b as [|x b IH]; intros [|x' b']; cbn [sprintf_x];
    try discriminate; [reflexivity|].
  intros [= Hhi Hlo Hrest].
  pose proof (hex_digits_read_back x) as Hx.
  pose proof (hex_digits_read_back x') as Hx'.
  rewrite Hhi, Hlo in Hx. rewrite Hx in Hx'. injection Hx' as ->.
  f_equal. now apply IH.
Qed.

Lemma to_int_not_nil (z : Z) :
  Z.to_int z <> Decimal.Pos Decimal.Nil /\ Z.to_int z <> Decimal.Neg Decimal.Nil.
Proof.
  destruct z as [|p|p]; cbn; split; try discriminate;
    intros [= H]; now apply DecimalPos.Unsigned.to_uint_nonnil in H.
Qed.

Lemma sprintf_d_inj (z z' : Z) : sprintf_d z = sprintf_d z' -> z = z'.
Proof.
  unfold sprintf_d. intro H.
  destruct (to_int_not_nil z) as [Hp Hn]. destruct (to_int_not_nil z') as [Hp' Hn'].
  pose proof (NilZero.isi _ Hp Hn) as E. pose proof (NilZero.isi _ Hp' Hn') as E'.
  rewrite H in E. rewrite E in E'. injection E' as E'.
  now apply DecimalZ.to_int_inj.
Qed.

(** The last dash of [d-x] is the separator when [x] has none. *)
Lemma dash_split_unique (d d' x x' : string) :
  no_dash x = true -> no_dash x' = true ->
  (d ++ String "-" x)%string = (d' ++ String "-" x')%string ->
  d = d' /\ x = x'.
Proof.
  intros Hx Hx'. revert d'.
  assert (Hdash : forall s t, no_dash (s ++ String "-" t)%string = false).
  { induction s as [|c s IH]; intro t; cbn.
    - reflexivity.
    - rewrite IH. apply andb_false_r. }
  induction d as [|c d IH]; intros [|c' d']; cbn; intro H.
  - injection H as Hxx. now split.
  - injection H as _ Hxx. rewrite Hxx, Hdash in Hx. discriminate.
  - injection H as _ Hxx. rewrite <- Hxx, Hdash in Hx'. discriminate.
  - injection H as Hc H. destruct (IH _ H) as [Hd Hxx]. split; congruence.
Qed.

Lemma list_byte_of_string_inj (s s' : string) :
  list_byte_of_string s = list_byte_of_string s' -> s = s'.
Proof.
  intro H. rewrite <- (string_of_list_byte_of_string s),
    <- (string_of_list_byte_of_string s'). now rewrite H.
Qed.

Lemma MockGoodEvidence_Hash_inj (g g2 : MockGoodEvidence) :
  MockGoodEvidence_Hash g = MockGoodEvidence_Hash g2 -> g = g2.
Proof.
  unfold MockGoodEvidence_Hash. intro H. apply list_byte_of_string_inj in H.
  cbn [String.append] in H.
  apply dash_split_unique in H as [Hd Hx]; try apply sprintf_x_no_dash.
  apply sprintf_d_inj in Hd. apply sprintf_x_inj in Hx.
  destruct g, g2; cbn in *; congruence.
Qed.

Section MoreProperties.
Context {C : Collaborators} {X : External}.

(** ** Equality of evidence, continued *)

Lemma MockGoodEvidence_Equal_true (g g2 : MockGoodEvidence) :
  MockGoodEvidence_Equal g (EvMockGood g2) = Returns true <-> g = g2.
Proof.
  cbn. split.
  - intros [= H]. apply andb_true_iff in H as [Hh Ha].
    apply Z.eqb_eq in Hh. apply bytes_Equal_true in Ha.
    destruct g, g2; cbn in *; congruence.
  - intros <-. f_equal. apply andb_true_iff. split.
    + apply Z.eqb_refl.
    + now apply bytes_Equal_true.
Qed.

(** X1: on the mock variants Equal, equality of the hashes and equality of
    the two fields coincide: the hash ["%d-%x"] of height and address is
    injective. *)
Theorem mock_Equal_agrees_with_Hash :
  forall g g2 : MockGoodEvidence,
    (MockGoodEvidence_Hash g = MockGoodEvidence_Hash g2 <-> g = g2)
    /\ (Evidence_Equal (EvMockGood g) (EvMockGood g2) = Returns true <->
        Evidence_Hash (EvMockGood g) = Evidence_Hash (EvMockGood g2))
    /\ (Evidence_Equal (EvMockBad {| embedded := g |}) (EvMockBad {| embedded := g2 |})
        = Returns true <->
        Evidence_Hash (EvMockBad {| embedded := g |})
        = Evidence_Hash (EvMockBad {| embedded := g2 |})).
Proof.
  intros g g2.
  assert (Hinj : MockGoodEvidence_Hash g = MockGoodEvidence_Hash g2 <-> g = g2).
  { split; [apply MockGoodEvidence_Hash_inj | now intros ->]. }
  split; [exact Hinj|]. split.
  - cbn [Evidence_Equal Evidence_Hash]. rewrite Hinj. apply MockGoodEvidence_Equal_true.
  - cbn [Evidence_Equal Evidence_Hash embedded]. rewrite Hinj.
    apply (MockGoodEvidence_Equal_true g g2).
Qed.

(** X2: Equal is an equivalence relation on DuplicateVoteEvidence values:
    reflexive, symmetric and transitive. *)
Theorem DuplicateVoteEvidence_Equal_equivalence :
  forall d1 d2 d3 : DuplicateVoteEvidence,
    DuplicateVoteEvidence_Equal d1 (EvDuplicateVote d1) = true
    /\ DuplicateVoteEvidence_Equal d1 (EvDuplicateVote d2)
       = DuplicateVoteEvidence_Equal d2 (EvDuplicateVote d1)
    /\ (DuplicateVoteEvidence_Equal d1 (EvDuplicateVote d2) = true ->
        DuplicateVoteEvidence_Equal d2 (EvDuplicateVote d3) = true ->
        DuplicateVoteEvidence_Equal d1 (EvDuplicateVote d3) = true).
Proof.
  intros d1 d2 d3. unfold DuplicateVoteEvidence_Equal. cbn [as_DuplicateVoteEvidence].
  split; [now apply bytes_Equal_true|]. split.
  - destruct (bytes_Equal (aminoHasher_Hash (EvDuplicateVote d1)) _) eqn:E12;
      symmetry.
    + apply bytes_Equal_true. apply bytes_Equal_true in E12. congruence.
    + apply bytes_Equal_false. apply bytes_Equal_false in E12. congruence.
  - rewrite !bytes_Equal_true. congruence.
Qed.

(** ** Membership *)

Lemma EvidenceList_Has_cons (ev : Evidence) (evl : EvidenceList) (x : Evidence) :
  EvidenceList_Has (ev :: evl) x
  = match Evidence_Equal ev x with
    | Returns true => Returns true
    | Returns false => EvidenceList_Has evl x
    | Panics p => Panics p
    end.
Proof. cbn. now destruct (Evidence_Equal ev x) as [[|]|p]. Qed.

(** The scan stops with [o], a match or a panic, at the first element whose
    Equal does not return false. *)
Lemma EvidenceList_Has_stops (evl : EvidenceList) (x : Evidence) (o : outcome bool) :
  o <> Returns false ->
  (EvidenceList_Has evl x = o <->
   exists i ev, nth_error evl i = Some ev
                /\ Evidence_Equal ev x = o
                /\ forall j ev', (j < i)%nat -> nth_error evl j = Some ev' ->
                                 Evidence_Equal ev' x = Returns false).
Proof.
  intro Ho. induction evl as [|a evl IH].
  - cbn. split; [congruence | intros ([|i] & ev & H & _); discriminate].
  - rewrite EvidenceList_Has_cons.
    assert (Hhead : forall o', Evidence_Equal a x = o' -> o' <> Returns false ->
              (o' = o <->
               exists i ev, nth_error (a :: evl) i = Some ev
                 /\ Evidence_Equal ev x = o
                 /\ forall j ev', (j < i)%nat -> nth_error (a :: evl) j = Some ev' ->
                                  Evidence_Equal ev' x = Returns false)).
    { intros o' E Ho'. split.
      - intros <-. exists 0%nat, a. split; [reflexivity|]. split; [exact E|].
        intros j ev' Hj. lia.
      - intros ([|i] & ev & Hi & He & Hbefore).
        + cbn in Hi. injection Hi as <-. congruence.
        + specialize (Hbefore 0%nat a ltac:(lia) eq_refl). congruence. }
    destruct (Evidence_Equal a x) as [[|]|p] eqn:E.
    + now apply Hhead.
    + rewrite IH. split.
      * intros (i & ev & Hi & He & Hbefore). exists (S i), ev.
        split; [exact Hi|]. split; [exact He|].
        intros [|j] ev' Hj Hev'; cbn in Hev'.
        -- now injection Hev' as <-.
        -- apply (Hbefore j); [lia | exact Hev'].
      * intros ([|i] & ev & Hi & He & Hbefore); cbn in Hi.
        -- injection Hi as <-. congruence.
        -- exists i, ev. split; [exact Hi|]. split; [exact He|].
           intros j ev' Hj Hev'. apply (Hbefore (S j)); [lia | exact Hev'].
    + now apply Hhead.
Qed.

Lemma EvidenceList_Has_false (evl : EvidenceList) (x : Evidence) :
  EvidenceList_Has evl x = Returns false <->
  forall ev, In ev evl -> Evidence_Equal ev x = Returns false.
Proof.
  induction evl as [|a evl IH].
  - cbn. split; [intros _ ev [] | reflexivity].
  - rewrite EvidenceList_Has_cons. destruct (Evidence_Equal a x) as [[|]|p] eqn:E.
    + split; [discriminate|]. intro H. rewrite <- E. apply H. now left.
    + rewrite IH. split.
      * intros H ev [<-|Hin]; [exact E | now apply H].
      * intros H ev Hin. apply H. now right.
    + split; [discriminate|]. intro H. rewrite <- E. apply H. now left.
Qed.

(** X3: Has is a linear scan in list order.  It returns true exactly when
    some element's Equal returns true and every earlier element's Equal
    returned false; it returns false exactly when every element's Equal
    returns false; it panics exactly when some element's Equal panics and
    every earlier element's Equal returned false, so a panic on an earlier
    element hides a later match. *)
Theorem EvidenceList_Has_scan :
  forall (evl : EvidenceList) (x : Evidence),
    (EvidenceList_Has evl x = Returns true <->
     exists i ev, nth_error evl i = Some ev
                  /\ Evidence_Equal ev x = Returns true
                  /\ forall j ev', (j < i)%nat -> nth_error evl j = Some ev' ->
                                   Evidence_Equal ev' x = Returns false)
    /\ (EvidenceList_Has evl x = Returns false <->
        forall ev, In ev evl -> Evidence_Equal ev x = Returns false)
    /\ (forall p, EvidenceList_Has evl x = Panics p <->
        exists i ev, nth_error evl i = Some ev
                     /\ Evidence_Equal ev x = Panics p
                     /\ forall j ev', (j < i)%nat -> nth_error evl j = Some ev' ->
                                      Evidence_Equal ev' x = Returns false).
Proof.
  intros evl x. split; [|split].
  - apply EvidenceList_Has_stops. discriminate.
  - apply EvidenceList_Has_false.
  - intro p. apply EvidenceList_Has_stops. discriminate.
Qed.

(** X4: Has on a concatenation scans the first list and goes on to the
    second one only when the first scan returned false. *)
Theorem EvidenceList_Has_app :
  forall (l1 l2 : EvidenceList) (x : Evidence),
    EvidenceList_Has (l1 ++ l2) x
    = match EvidenceList_Has l1 x with
      | Returns true => Returns true
      | Returns false => EvidenceList_Has l2 x
      | Panics p => Panics p
      end.
Proof.
  intros l1 l2 x. induction l1 as [|a l1 IH]; [reflexivity|].
  cbn [app]. rewrite !EvidenceList_Has_cons.
  destruct (Evidence_Equal a x) as [[|]|p]; [reflexivity | exact IH | reflexivity].
Qed.

(** X5: on a list that holds only DuplicateVoteEvidence items Has never
    panics, whatever the argument, and returns true exactly when the
    argument is a DuplicateVoteEvidence and some item has its hash. *)
Theorem EvidenceList_Has_DuplicateVotes :
  forall (evl : EvidenceList) (x : Evidence),
    Forall (fun ev => is_DuplicateVote ev = true) evl ->
    EvidenceList_Has evl x
    = Returns (is_DuplicateVote x
               && existsb (fun ev => bytes_Equal (Evidence_Hash ev) (Evidence_Hash x)) evl).
Proof.
  intros evl x Hall. induction Hall as [|a evl Ha Hall IH].
  - cbn. now rewrite andb_false_r.
  - rewrite EvidenceList_Has_cons. destruct a as [d|g|m]; try discriminate.
    cbn [Evidence_Equal existsb]. rewrite IH.
    destruct x as [d'|g'|m']; cbn; try reflexivity.
    now destruct (bytes_Equal _ _).
Qed.

(** X6: Has never answers false when the list holds a mock item whose
    variant differs from the argument's: the scan either stops earlier at a
    match or panics on a failed type assertion. *)
Theorem EvidenceList_Has_mixed_variants :
  forall (evl : EvidenceList) (x ev : Evidence),
    In ev evl ->
    is_DuplicateVote ev = false ->
    (is_DuplicateVote x = true \/ is_MockGood ev <> is_MockGood x) ->
    EvidenceList_Has evl x = Returns true
    \/ EvidenceList_Has evl x = Panics TypeAssertion.
Proof.
  intros evl x ev Hin Hmock Hdiff.
  assert (Hpanic : Evidence_Equal ev x = Panics TypeAssertion).
  { destruct ev as [d|g|m]; [discriminate| |];
      destruct x as [d'|g'|m']; cbn in *; try reflexivity;
      destruct Hdiff as [H|H]; try discriminate; now elim H. }
  induction evl as [|a evl IH]; [destruct Hin|].
  rewrite EvidenceList_Has_cons.
  destruct Hin as [->|Hin].
  - rewrite Hpanic. now right.
  - destruct (Evidence_Equal a x) as [[|]|p] eqn:E.
    + now left.
    + now apply IH.
    + right. destruct a as [d|g|m]; cbn in E; [discriminate| |];
        destruct x as [d'|g'|m']; cbn in E; congruence.
Qed.

(** X7: on a list that holds only MockGoodEvidence items, Has of a
    MockGoodEvidence never panics and is list membership. *)
Theorem EvidenceList_Has_MockGood_membership :
  forall (evl : EvidenceList) (g : MockGoodEvidence),
    Forall (fun ev => is_MockGood ev = true) evl ->
    (exists b, EvidenceList_Has evl (EvMockGood g) = Returns b)
    /\ (EvidenceList_Has evl (EvMockGood g) = Returns true <-> In (EvMockGood g) evl).
Proof.
  intros evl g Hall. induction Hall as [|a evl Ha Hall [IHr IHm]].
  - split; [now exists false|]. cbn. split; [discriminate | tauto].
  - rewrite EvidenceList_Has_cons. destruct a as [d|g0|m]; try discriminate.
    cbn [Evidence_Equal].
    destruct (MockGoodEvidence_Equal g0 (EvMockGood g)) as [[|]|p] eqn:E.
    + apply MockGoodEvidence_Equal_true in E as ->.
      split; [now exists true|]. split; [now left | reflexivity].
    + split; [exact IHr|]. rewrite IHm. split; [now right|].
      intros [[= ->]|Hin]; [|exact Hin].
      assert (MockGoodEvidence_Equal g (EvMockGood g) = Returns true)
        by now apply MockGoodEvidence_Equal_true.
      congruence.
    + discriminate.
Qed.

(** ** Verification, continued *)

Lemma Verify_success_iff (pk : PubKey) (a b : SignVoteReply)
  (chainID : string) (pubKey : PubKey) :
  DuplicateVoteEvidence_Verify
    {| dve_PubKey := pk; VoteA := Some a; VoteB := Some b |} chainID pubKey
  = Returns None <->
  check_HRS a b = true /\ check_address a b = true /\ check_index a b = true
  /\ check_blocks_differ a b = true /\ check_pubkey pubKey a = true
  /\ check_signature pubKey a = true /\ check_signature pubKey b = true.
Proof.
  rewrite Verify_first_violation.
  transitivity (first_violation (verify_checks a b pubKey) = None).
  { split; [intros [= H]; exact H | intros ->; reflexivity]. }
  rewrite first_violation_None. unfold verify_checks.
  cbn [forallb fst]. rewrite !andb_true_iff. tauto.
Qed.

(** X8: Verify never reads the public key stored in the evidence: its
    result is the same whatever that key is.  Address is the address of
    the stored key, while the validator address of the votes of evidence
    that verifies is the address of the key given to Verify; nothing ties
    the two together. *)
Theorem Verify_ignores_stored_PubKey :
  forall (pk pk' : PubKey) (voteA voteB : option SignVoteReply)
         (chainID : string) (pubKey : PubKey),
    DuplicateVoteEvidence_Verify
      {| dve_PubKey := pk; VoteA := voteA; VoteB := voteB |} chainID pubKey
    = DuplicateVoteEvidence_Verify
        {| dve_PubKey := pk'; VoteA := voteA; VoteB := voteB |} chainID pubKey
    /\ DuplicateVoteEvidence_Address {| dve_PubKey := pk'; VoteA := voteA; VoteB := voteB |}
       = PubKey_Address pk'
    /\ (DuplicateVoteEvidence_Verify
          {| dve_PubKey := pk'; VoteA := voteA; VoteB := voteB |} chainID pubKey
        = Returns None ->
        forall a, voteA = Some a ->
                  Vote_ValidatorAddress (Reply_Vote a) = PubKey_Address pubKey).
Proof.
  intros pk pk' voteA voteB chainID pubKey.
  split; [reflexivity|]. split; [reflexivity|].
  intros H a ->. destruct voteB as [b|].
  - apply Verify_success_iff in H as (_ & _ & _ & _ & Hpk & _).
    apply bytes_Equal_true in Hpk. now symmetry.
  - rewrite Verify_nil_vote in H; [discriminate | cbn; tauto].
Qed.

(** X9: when Verify succeeds, both vote pointers are set, Height returns
    the height shared by the two votes, the two votes have the same round,
    type and validator index, their validator address is the address of
    the verifying key, and their block identifiers are not Equals. *)
Theorem Verify_success_shape :
  forall (dve : DuplicateVoteEvidence) (chainID : string) (pubKey : PubKey),
    DuplicateVoteEvidence_Verify dve chainID pubKey = Returns None ->
    exists a b,
      VoteA dve = Some a /\ VoteB dve = Some b
      /\ DuplicateVoteEvidence_Height dve = Returns (Vote_Height (Reply_Vote b))
      /\ Vote_Height (Reply_Vote a) = Vote_Height (Reply_Vote b)
      /\ Vote_Round (Reply_Vote a) = Vote_Round (Reply_Vote b)
      /\ Vote_Type (Reply_Vote a) = Vote_Type (Reply_Vote b)
      /\ Vote_ValidatorIndex (Reply_Vote a) = Vote_ValidatorIndex (Reply_Vote b)
      /\ Vote_ValidatorAddress (Reply_Vote a) = PubKey_Address pubKey
      /\ Vote_ValidatorAddress (Reply_Vote b) = PubKey_Address pubKey
      /\ BlockID_Equals (Vote_BlockID (Reply_Vote a)) (Vote_BlockID (Reply_Vote b)) = false.
Proof.
  intros [pk [a|] [b|]] chainID pubKey H;
    try (rewrite Verify_nil_vote in H; [discriminate | cbn; tauto]).
  apply Verify_success_iff in H as (Hhrs & Haddr & Hidx & Hblk & Hpk & _ & _).
  unfold check_HRS in Hhrs. apply andb_true_iff in Hhrs as [Hhrs Ht].
  apply andb_true_iff in Hhrs as [Hh Hr].
  apply Z.eqb_eq in Hh, Hr, Ht, Hidx.
  apply bytes_Equal_true in Haddr, Hpk.
  apply negb_true_iff in Hblk.
  exists a, b. cbn [VoteA VoteB]. unfold DuplicateVoteEvidence_Height. cbn.
  repeat split; congruence.
Qed.

(** X10: signatures made by a MockPV verify under its public key, for a key
    pair on which VerifyBytes accepts what Sign produces: the reply of
    SignVote over the vote's sign-bytes, and the Signature written by
    SignProposal and SignHeartbeat over the sign-bytes of the message as it
    was before signing. *)
Theorem MockPV_signatures_verify :
  forall (pv : MockPV) (chainID : string)
         (vote : Vote) (proposal : Proposal) (heartbeat : Heartbeat),
    (forall msg sig, PrivKey_Sign (privKey pv) msg = inl sig ->
                     PubKey_VerifyBytes (MockPV_GetPubKey pv) msg sig = true) ->
    (forall reply, snd (MockPV_SignVote pv vote) = inl reply ->
       Reply_Vote reply = vote
       /\ PubKey_VerifyBytes (MockPV_GetPubKey pv) (Vote_SignBytes vote)
            (Reply_Signature reply) = true)
    /\ (snd (MockPV_SignProposal pv chainID proposal) = None ->
        PubKey_VerifyBytes (MockPV_GetPubKey pv) (Proposal_SignBytes proposal chainID)
          (Proposal_Signature (fst (MockPV_SignProposal pv chainID proposal))) = true)
    /\ (snd (MockPV_SignHeartbeat pv chainID heartbeat) = None ->
        PubKey_VerifyBytes (MockPV_GetPubKey pv) (Heartbeat_SignBytes heartbeat chainID)
          (Heartbeat_Signature (fst (MockPV_SignHeartbeat pv chainID heartbeat))) = true).
Proof.
  intros pv chainID vote proposal heartbeat Hkey.
  unfold MockPV_SignVote, MockPV_SignProposal, MockPV_SignHeartbeat,
    sbind, sget, sput, sret.
  split; [|split].
  - intros reply Hreply.
    destruct (PrivKey_Sign _ _) eqn:E; cbn in Hreply; [|discriminate].
    injection Hreply as <-. cbn. split; [reflexivity | now apply Hkey].
  - destruct (PrivKey_Sign _ _) eqn:E; cbn; [|discriminate]. intros _. now apply Hkey.
  - destruct (PrivKey_Sign _ _) eqn:E; cbn; [|discriminate]. intros _. now apply Hkey.
Qed.

Lemma SignVote_reply (pv : MockPV) (vote : Vote) (reply : SignVoteReply) :
  snd (MockPV_SignVote pv vote) = inl reply ->
  Reply_Vote reply = vote
  /\ PrivKey_Sign (privKey pv) (Vote_SignBytes vote) = inl (Reply_Signature reply).
Proof.
  unfold MockPV_SignVote, sbind, sget, sret.
  destruct (PrivKey_Sign _ _) eqn:E; cbn; [|discriminate].
  intros [= <-]. now split.
Qed.

(** X11: a MockPV signs two conflicting votes without objection, and the
    two replies are valid evidence against it: for a key pair on which
    VerifyBytes accepts what Sign produces, two votes of the validator's
    own address with the same height, round, type and index and different
    blocks, both signed by SignVote, pass Verify under the validator's
    public key. *)
Theorem MockPV_double_sign_verifies :
  forall (pv : MockPV) (va vb : Vote) (ra rb : SignVoteReply) (chainID : string),
    (forall msg sig, PrivKey_Sign (privKey pv) msg = inl sig ->
                     PubKey_VerifyBytes (MockPV_GetPubKey pv) msg sig = true) ->
    snd (MockPV_SignVote pv va) = inl ra ->
    snd (MockPV_SignVote pv vb) = inl rb ->
    Vote_Height va = Vote_Height vb ->
    Vote_Round va = Vote_Round vb ->
    Vote_Type va = Vote_Type vb ->
    Vote_ValidatorAddress va = MockPV_GetAddress pv ->
    Vote_ValidatorAddress vb = MockPV_GetAddress pv ->
    Vote_ValidatorIndex va = Vote_ValidatorIndex vb ->
    BlockID_Equals (Vote_BlockID va) (Vote_BlockID vb) = false ->
    DuplicateVoteEvidence_Verify
      {| dve_PubKey := MockPV_GetPubKey pv; VoteA := Some ra; VoteB := Some rb |}
      chainID (MockPV_GetPubKey pv)
    = Returns None.
Proof.
  intros pv va vb ra rb chainID Hkey Ha Hb Hh Hr Ht Haddr Haddr' Hidx Hblk.
  apply SignVote_reply in Ha as [Hva Hsa]. apply SignVote_reply in Hb as [Hvb Hsb].
  apply Hkey in Hsa, Hsb.
  apply Verify_success_iff.
  unfold check_HRS, check_address, check_index, check_blocks_differ,
    check_pubkey, check_signature. rewrite Hva, Hvb.
  rewrite Hh, Hr, Ht, Hidx, !Z.eqb_refl, Haddr, Haddr', Hblk, Hsa, Hsb.
  unfold MockPV_GetAddress, MockPV_GetPubKey.
  assert (E : bytes_Equal (PubKey_Address (PrivKey_PubKey (privKey pv)))
                          (PubKey_Address (PrivKey_PubKey (privKey pv))) = true)
    by now apply bytes_Equal_true.
  rewrite E. repeat split.
Qed.

(** X12: a vote reported twice is never evidence: when BlockID.Equals holds
    between a block identifier and itself, two replies with the same vote
    are rejected with the error of the fourth check, whatever the
    signatures and the key. *)
Theorem Verify_same_vote_rejected :
  forall (pk : PubKey) (a b : SignVoteReply) (chainID : string) (pubKey : PubKey),
    (forall id, BlockID_Equals id id = true) ->
    Reply_Vote a = Reply_Vote b ->
    DuplicateVoteEvidence_Verify
      {| dve_PubKey := pk; VoteA := Some a; VoteB := Some b |} chainID pubKey
    = Returns (Some (Errorf
        "DuplicateVoteEvidence Error: BlockIDs are the same (%v) - not a real duplicate vote"
        [OpBlockID (Vote_BlockID (Reply_Vote a))])).
Proof.
  intros pk a b chainID pubKey Hrefl Hab. rewrite Verify_first_violation.
  unfold verify_checks, check_HRS, check_address, check_index, check_blocks_differ.
  rewrite <- Hab, !Z.eqb_refl, Hrefl.
  assert (E : bytes_Equal (Vote_ValidatorAddress (Reply_Vote a))
                          (Vote_ValidatorAddress (Reply_Vote a)) = true)
    by now apply bytes_Equal_true.
  rewrite E. reflexivity.
Qed.

(** X13: whether evidence verifies does not depend on which vote is stored
    as VoteA and which as VoteB, when BlockID.Equals is symmetric. *)
Theorem Verify_success_symmetric :
  forall (pk : PubKey) (a b : SignVoteReply) (chainID : string) (pubKey : PubKey),
    (forall id id', BlockID_Equals id id' = BlockID_Equals id' id) ->
    (DuplicateVoteEvidence_Verify
       {| dve_PubKey := pk; VoteA := Some a; VoteB := Some b |} chainID pubKey
     = Returns None <->
     DuplicateVoteEvidence_Verify
       {| dve_PubKey := pk; VoteA := Some b; VoteB := Some a |} chainID pubKey
     = Returns None).
Proof.
  intros pk a b chainID pubKey Hsym.
  assert (Hone : forall a b,
    DuplicateVoteEvidence_Verify
      {| dve_PubKey := pk; VoteA := Some a; VoteB := Some b |} chainID pubKey
    = Returns None ->
    DuplicateVoteEvidence_Verify
      {| dve_PubKey := pk; VoteA := Some b; VoteB := Some a |} chainID pubKey
    = Returns None).
  { clear a b. intros a b H. apply Verify_success_iff in H.
    destruct H as (Hhrs & Haddr & Hidx & Hblk & Hpk & Hsa & Hsb).
    apply Verify_success_iff.
    unfold check_HRS, check_address, check_index, check_blocks_differ, check_pubkey in *.
    apply andb_true_iff in Hhrs as [Hhrs Ht]. apply andb_true_iff in Hhrs as [Hh Hr].
    apply Z.eqb_eq in Hh, Hr, Ht, Hidx. apply bytes_Equal_true in Haddr, Hpk.
    rewrite <- Hh, <- Hr, <- Ht, <- Hidx, !Z.eqb_refl, <- Haddr, (Hsym _ _), Hblk.
    assert (E : bytes_Equal (Vote_ValidatorAddress (Reply_Vote a))
                            (Vote_ValidatorAddress (Reply_Vote a)) = true)
      by now apply bytes_Equal_true.
    rewrite E. repeat split; try assumption. now apply bytes_Equal_true. }
  split; apply Hone.
Qed.

(** ** The list hash, continued *)

Lemma EvidenceList_Hash_of_item_hashes (n : nat) :
  forall l l' : EvidenceList,
    (List.length l <= n)%nat ->
    map Evidence_Hash l = map Evidence_Hash l' ->
    EvidenceList_Hash l = EvidenceList_Hash l'.
Proof.
  induction n as [|n IH]; intros l l' Hn Hmap.
  - destruct l; [|cbn in Hn; lia]. destruct l'; [reflexivity | discriminate].
  - assert (Hlen : List.length l = List.length l')
      by (rewrite <- (length_map Evidence_Hash l), Hmap; apply length_map).
    destruct l as [|a [|a1 rest]]; destruct l' as [|b [|b1 rest']];
      try discriminate; [reflexivity | |].
    + simp EvidenceList_Hash. now injection Hmap.
    + set (l := a :: a1 :: rest) in *. set (l' := b :: b1 :: rest') in *.
      assert (H2 : (2 <= List.length l)%nat) by (cbn; lia).
      assert (H2' : (2 <= List.length l')%nat) by (cbn; lia).
      destruct (split_point_bounds l H2) as [Hlo Hhi].
      rewrite (EvidenceList_Hash_split l H2), (EvidenceList_Hash_split l' H2').
      assert (Hk : split_point l' = split_point l)
        by (unfold split_point; now rewrite Hlen).
      rewrite Hk. set (k := split_point l) in *.
      f_equal; apply IH.
      * rewrite length_firstn; lia.
      * now rewrite <- !firstn_map, Hmap.
      * rewrite length_skipn; lia.
      * now rewrite <- !skipn_map, Hmap.
Qed.

(** X14: the hash of an EvidenceList is a function of the hashes of its
    items, in order: two lists with the same item hashes have the same
    hash, whatever the variants and contents of the items. *)
Theorem EvidenceList_Hash_depends_on_item_hashes :
  forall l l' : EvidenceList,
    map Evidence_Hash l = map Evidence_Hash l' ->
    EvidenceList_Hash l = EvidenceList_Hash l'.
Proof.
  intros l l'. now apply (EvidenceList_Hash_of_item_hashes (List.length l)).
Qed.



(** X16: on a list of two or more items the hash is the two-hash
    combination of the hashes of a left and a right part that together are
    the list, in order, and that are balanced with the extra item on the
    left: the left part has as many items as the right part, or one more. *)
Theorem EvidenceList_Hash_split_balanced :
  forall evl : EvidenceList,
    (2 <= List.length evl)%nat ->
    exists left right : EvidenceList,
      evl = left ++ right
      /\ EvidenceList_Hash evl
         = SimpleHashFromTwoHashes (EvidenceList_Hash left) (EvidenceList_Hash right)
      /\ (List.length left = List.length right
          \/ List.length left = S (List.length right)).
Proof.
  intros evl H.
  exists (firstn (split_point evl) evl), (skipn (split_point evl) evl).
  split; [symmetry; apply firstn_skipn|].
  split; [now apply EvidenceList_Hash_split|].
  rewrite length_firstn, length_skipn. unfold split_point.
  pose proof (Nat.div_mod_eq (List.length evl + 1) 2).
  pose proof (Nat.mod_upper_bound (List.length evl + 1) 2 ltac:(lia)).
  lia.
Qed.

End MoreProperties.

(** ** The size ceiling, continued *)

(** X17: the per-block ceiling rounds toward zero on every input: ten times
    the ceiling is within nine of blockMaxBytes and never beyond it in
    absolute value, a negative blockMaxBytes gives the negated ceiling of
    its absolute value (so -5 gives 0, not -1), and the ceiling is monotone. *)
Theorem MaxEvidenceBytesPerBlock_rounds_toward_zero :
  forall n m : Z,
    Z.abs (10 * MaxEvidenceBytesPerBlock n) <= Z.abs n
    /\ Z.abs n < Z.abs (10 * MaxEvidenceBytesPerBlock n) + 10
    /\ MaxEvidenceBytesPerBlock (- n) = - MaxEvidenceBytesPerBlock n
    /\ (n <= m -> MaxEvidenceBytesPerBlock n <= MaxEvidenceBytesPerBlock m).
Proof.
  intros n m. unfold MaxEvidenceBytesPerBlock.
  pose proof (Z.quot_rem n 10 ltac:(lia)) as En.
  pose proof (Z.rem_bound_abs n 10 ltac:(lia)) as Hr.
  assert (Hbounds : Z.abs (10 * Z.quot n 10) <= Z.abs n
                    /\ Z.abs n < Z.abs (10 * Z.quot n 10) + 10).
  { destruct (Z.le_gt_cases 0 n) as [Hn|Hn].
    - pose proof (Z.rem_nonneg n 10 ltac:(lia) ltac:(lia)).
      assert (0 <= Z.quot n 10) by (apply Z.quot_pos; lia). lia.
    - pose proof (Z.rem_nonpos n 10 ltac:(lia) ltac:(lia)).
      assert (Z.quot n 10 <= 0).
      { rewrite <- (Z.opp_involutive n), Z.quot_opp_l by lia.
        assert (0 <= Z.quot (- n) 10) by (apply Z.quot_pos; lia). lia. }
      lia. }
  split; [apply Hbounds|]. split; [apply Hbounds|]. split.
  - apply Z.quot_opp_l. lia.
  - intro Hle. apply Z.quot_le_mono; lia.
Qed.

(** ** Byte order and slices *)

Lemma byte_to_N_inj (x y : byte) : Byte.to_N x = Byte.to_N y -> x = y.
Proof.
  intro H. pose proof (Byte.of_to_N x) as Hx. rewrite H, Byte.of_to_N in Hx.
  now injection Hx.
Qed.

Lemma bytes_Compare_eq (a b : bytes) : bytes_Compare a b = 0 <-> a = b.
Proof.
  revert b. induction a as [|x a IH]; intros [|y b]; cbn;
    try (split; [discriminate | discriminate]); [tauto|].
  destruct (N.compare_spec (Byte.to_N x) (Byte.to_N y)) as [E|L|L].
  - apply byte_to_N_inj in E as ->. rewrite IH. split; congruence.
  - split; [discriminate|]. intros [= -> _]. lia.
  - split; [discriminate|]. intros [= -> _]. lia.
Qed.

Lemma bytes_Compare_antisym (a b : bytes) : bytes_Compare b a = - bytes_Compare a b.
Proof.
  revert b. induction a as [|x a IH]; intros [|y b]; cbn; try reflexivity.
  rewrite (N.compare_antisym (Byte.to_N x) (Byte.to_N y)).
  destruct (N.compare (Byte.to_N x) (Byte.to_N y)); cbn; [apply IH | reflexivity..].
Qed.

Lemma bytes_Compare_lt_trans (a b c : bytes) :
  bytes_Compare a b = -1 -> bytes_Compare b c = -1 -> bytes_Compare a c = -1.
Proof.
  revert b c. induction a as [|x a IH]; intros [|y b] [|z c]; cbn;
    try discriminate; try reflexivity.
  destruct (N.compare_spec (Byte.to_N x) (Byte.to_N y));
    destruct (N.compare_spec (Byte.to_N y) (Byte.to_N z));
    try discriminate;
    destruct (N.compare_spec (Byte.to_N x) (Byte.to_N z));
    try lia; try reflexivity.
  apply IH.
Qed.

Lemma index_Some {A : Type} (s : list A) (i : Z) (a : A) :
  index s i = Some a <-> 0 <= i /\ nth_error s (Z.to_nat i) = Some a.
Proof.
  unfold index. destruct (Z.ltb_spec i 0); split.
  - discriminate.
  - intros [H0 _]. lia.
  - now split.
  - now intros [_ H0].
Qed.

Lemma index_None {A : Type} (s : list A) (i : Z) :
  index s i = None <-> i < 0 \/ Z.of_nat (List.length s) <= i.
Proof.
  unfold index. destruct (Z.ltb_spec i 0).
  - split; [now left | reflexivity].
  - rewrite nth_error_None. lia.
Qed.

Lemma length_store {A : Type} (s : list A) (n : nat) (v : A) :
  List.length (store s n v) = List.length s.
Proof.
  revert n. induction s as [|x s IH]; intros [|n]; cbn; try reflexivity.
  now rewrite IH.
Qed.

Lemma nth_error_store_same {A : Type} (s : list A) (n : nat) (v : A) :
  (n < List.length s)%nat -> nth_error (store s n v) n = Some v.
Proof.
  revert n. induction s as [|x s IH]; intros [|n]; cbn; intro H; try lia.
  - reflexivity.
  - apply IH. lia.
Qed.

Lemma nth_error_store_other {A : Type} (s : list A) (n m : nat) (v : A) :
  n <> m -> nth_error (store s n v) m = nth_error s m.
Proof.
  revert n m. induction s as [|x s IH]; intros [|n] [|m] H; cbn;
    try reflexivity; try congruence.
  apply IH. congruence.
Qed.

Section SortInterface.
Context {C : Collaborators} {X : External}.

Lemma Less_in_range (pvs : PrivValidatorsByAddress) (i j : Z) (a b : PrivValidator) :
  index pvs i = Some a -> index pvs j = Some b ->
  PrivValidatorsByAddress_Less pvs i j
  = Some (bytes_Compare (PrivValidator_GetAddress a) (PrivValidator_GetAddress b) =? -1).
Proof. unfold PrivValidatorsByAddress_Less. now intros -> ->. Qed.

(** X18: on indices in range Less is a strict total order on the
    validators' addresses: it is irreflexive, asymmetric and transitive,
    and two validators of which neither is Less than the other have the
    same address. *)
Theorem PrivValidatorsByAddress_Less_strict_order :
  forall (pvs : PrivValidatorsByAddress) (i j k : Z) (a b c : PrivValidator),
    index pvs i = Some a -> index pvs j = Some b -> index pvs k = Some c ->
    PrivValidatorsByAddress_Less pvs i i = Some false
    /\ (PrivValidatorsByAddress_Less pvs i j = Some true ->
        PrivValidatorsByAddress_Less pvs j i = Some false)
    /\ (PrivValidatorsByAddress_Less pvs i j = Some true ->
        PrivValidatorsByAddress_Less pvs j k = Some true ->
        PrivValidatorsByAddress_Less pvs i k = Some true)
    /\ (PrivValidatorsByAddress_Less pvs i j = Some false ->
        PrivValidatorsByAddress_Less pvs j i = Some false ->
        PrivValidator_GetAddress a = PrivValidator_GetAddress b).
Proof.
  intros pvs i j k a b c Hi Hj Hk.
  rewrite (Less_in_range _ _ _ _ _ Hi Hi), (Less_in_range _ _ _ _ _ Hi Hj),
    (Less_in_range _ _ _ _ _ Hj Hi), (Less_in_range _ _ _ _ _ Hj Hk),
    (Less_in_range _ _ _ _ _ Hi Hk).
  set (x := PrivValidator_GetAddress a). set (y := PrivValidator_GetAddress b).
  set (z := PrivValidator_GetAddress c).
  pose proof (bytes_Compare_antisym x y) as Hanti.
  split; [|split; [|split]].
  - assert (E : bytes_Compare x x = 0) by now apply bytes_Compare_eq.
    now rewrite E.
  - intros [= H]. apply Z.eqb_eq in H. f_equal. apply Z.eqb_neq. lia.
  - intros [= H1] [= H2]. apply Z.eqb_eq in H1, H2. f_equal. apply Z.eqb_eq.
    now apply (bytes_Compare_lt_trans x y z).
  - intros [= H1] [= H2]. apply Z.eqb_neq in H1, H2.
    apply bytes_Compare_eq.
    assert (Hrange : bytes_Compare x y = -1 \/ bytes_Compare x y = 0
                     \/ bytes_Compare x y = 1).
    { clear. generalize y. induction x as [|u x IH]; intros [|v y']; cbn; try lia.
      destruct (N.compare _ _); [apply IH | lia | lia]. }
    lia.
Qed.

Lemma Swap_in_range (pvs : PrivValidatorsByAddress) (i j : Z) (a b : PrivValidator) :
  index pvs i = Some a -> index pvs j = Some b ->
  PrivValidatorsByAddress_Swap i j pvs
  = (store (store pvs (Z.to_nat i) b) (Z.to_nat j) a, Some tt).
Proof.
  unfold PrivValidatorsByAddress_Swap, sbind, sget, sput, sret.
  now intros -> ->.
Qed.

Lemma nth_error_swapped (pvs : PrivValidatorsByAddress) (ni nj : nat) (a b : PrivValidator) :
  nth_error pvs ni = Some a -> nth_error pvs nj = Some b ->
  forall n,
    nth_error (store (store pvs ni b) nj a) n
    = nth_error pvs (if Nat.eqb n ni then nj else if Nat.eqb n nj then ni else n).
Proof.
  intros Ha Hb n.
  assert (Hli : (ni < List.length pvs)%nat) by (apply nth_error_Some; congruence).
  assert (Hlj : (nj < List.length pvs)%nat) by (apply nth_error_Some; congruence).
  destruct (Nat.eqb_spec n nj) as [->|Hnj].
  - rewrite nth_error_store_same by now rewrite length_store.
    destruct (Nat.eqb_spec nj ni) as [->|_]; congruence.
  - rewrite nth_error_store_other by congruence.
    destruct (Nat.eqb_spec n ni) as [->|Hni].
    + rewrite nth_error_store_same by exact Hli. congruence.
    + now rewrite nth_error_store_other by congruence.
Qed.

(** X19: Swap on two indices in range exchanges the two elements and
    touches nothing else: the length is kept, each of the two positions
    holds what the other held, every other position is unchanged, and the
    result is a permutation of the slice. *)
Theorem PrivValidatorsByAddress_Swap_exchanges :
  forall (pvs : PrivValidatorsByAddress) (i j : Z) (a b : PrivValidator),
    index pvs i = Some a -> index pvs j = Some b ->
    let pvs' := fst (PrivValidatorsByAddress_Swap i j pvs) in
    snd (PrivValidatorsByAddress_Swap i j pvs) = Some tt
    /\ PrivValidatorsByAddress_Len pvs' = PrivValidatorsByAddress_Len pvs
    /\ index pvs' i = Some b
    /\ index pvs' j = Some a
    /\ (forall k, k <> i -> k <> j -> index pvs' k = index pvs k)
    /\ Permutation.Permutation pvs pvs'.
Proof.
  intros pvs i j a b Hi Hj pvs'. subst pvs'.
  rewrite (Swap_in_range _ _ _ _ _ Hi Hj). cbn [fst snd].
  apply index_Some in Hi as [Hi0 Hi]. apply index_Some in Hj as [Hj0 Hj].
  pose proof (nth_error_swapped _ _ _ _ _ Hi Hj) as Hnth.
  split; [reflexivity|]. split; [|split; [|split; [|split]]].
  - unfold PrivValidatorsByAddress_Len. now rewrite !length_store.
  - apply index_Some. split; [exact Hi0|]. rewrite Hnth, Nat.eqb_refl. exact Hj.
  - apply index_Some. split; [exact Hj0|]. rewrite Hnth, Nat.eqb_refl.
    destruct (Nat.eqb_spec (Z.to_nat j) (Z.to_nat i)); congruence.
  - intros k Hki Hkj. unfold index. destruct (Z.ltb_spec k 0); [reflexivity|].
    rewrite Hnth.
    destruct (Nat.eqb_spec (Z.to_nat k) (Z.to_nat i)); [lia|].
    destruct (Nat.eqb_spec (Z.to_nat k) (Z.to_nat j)); [lia|]. reflexivity.
  - apply Permutation.Permutation_nth_error. split; [now rewrite !length_store|].
    exists (fun n => if Nat.eqb n (Z.to_nat i) then Z.to_nat j
                     else if Nat.eqb n (Z.to_nat j) then Z.to_nat i else n).
    split; [|exact Hnth].
    intros n m. 
    destruct (Nat.eqb_spec n (Z.to_nat i)), (Nat.eqb_spec m (Z.to_nat i)),
      (Nat.eqb_spec n (Z.to_nat j)), (Nat.eqb_spec m (Z.to_nat j)); congruence.
Qed.

(** X20: Swap and Less panic exactly when an index is out of range, and a
    Swap that panics has written nothing. *)
Theorem PrivValidatorsByAddress_out_of_range :
  forall (pvs : PrivValidatorsByAddress) (i j : Z),
    let in_range := fun k => 0 <= k < PrivValidatorsByAddress_Len pvs in
    (snd (PrivValidatorsByAddress_Swap i j pvs) = None <-> ~ (in_range i /\ in_range j))
    /\ (snd (PrivValidatorsByAddress_Swap i j pvs) = None ->
        fst (PrivValidatorsByAddress_Swap i j pvs) = pvs)
    /\ (PrivValidatorsByAddress_Less pvs i j = None <-> ~ (in_range i /\ in_range j)).
Proof.
  intros pvs i j in_range. subst in_range. cbv beta.
  unfold PrivValidatorsByAddress_Swap, PrivValidatorsByAddress_Less,
    PrivValidatorsByAddress_Len, sbind, sget, sput, sret.
  pose proof (index_None pvs i) as Ni. pose proof (index_None pvs j) as Nj.
  destruct (index pvs i) as [a|]; destruct (index pvs j) as [b|]; cbn [fst snd].
  - assert (Hi : ~ (i < 0 \/ Z.of_nat (List.length pvs) <= i))
      by (intro H; apply Ni in H; discriminate).
    assert (Hj : ~ (j < 0 \/ Z.of_nat (List.length pvs) <= j))
      by (intro H; apply Nj in H; discriminate).
    repeat split; try discriminate; intro H; exfalso; lia.
  - assert (Hj : j < 0 \/ Z.of_nat (List.length pvs) <= j) by now apply Nj.
    repeat split; try reflexivity; intros; lia.
  - assert (Hi : i < 0 \/ Z.of_nat (List.length pvs) <= i) by now apply Ni.
    repeat split; try reflexivity; intros; lia.
  - assert (Hi : i < 0 \/ Z.of_nat (List.length pvs) <= i) by now apply Ni.
    repeat split; try reflexivity; intros; lia.
Qed.

(** X21: Swap on the same two indices in range, done twice, gives back the
    slice as it was. *)
Theorem PrivValidatorsByAddress_Swap_twice :
  forall (pvs : PrivValidatorsByAddress) (i j : Z) (a b : PrivValidator),
    index pvs i = Some a -> index pvs j = Some b ->
    PrivValidatorsByAddress_Swap i j (fst (PrivValidatorsByAddress_Swap i j pvs))
    = (pvs, Some tt).
Proof.
  intros pvs i j a b Hi Hj.
  rewrite (Swap_in_range _ _ _ _ _ Hi Hj). cbn [fst].
  pose proof Hi as Hi'. pose proof Hj as Hj'.
  apply index_Some in Hi' as [Hi0 Hni]. apply index_Some in Hj' as [Hj0 Hnj].
  pose proof (nth_error_swapped _ _ _ _ _ Hni Hnj) as Hnth.
  set (pvs' := store (store pvs (Z.to_nat i) b) (Z.to_nat j) a) in *.
  assert (Hi2 : index pvs' i = Some b).
  { apply index_Some. split; [exact Hi0|]. rewrite Hnth, Nat.eqb_refl. exact Hnj. }
  assert (Hj2 : index pvs' j = Some a).
  { apply index_Some. split; [exact Hj0|]. rewrite Hnth, Nat.eqb_refl.
    destruct (Nat.eqb_spec (Z.to_nat j) (Z.to_nat i)); congruence. }
  rewrite (Swap_in_range _ _ _ _ _ Hi2 Hj2). f_equal.
  apply nth_error_ext. intro n.
  apply index_Some in Hi2 as [_ Hni2]. apply index_Some in Hj2 as [_ Hnj2].
  rewrite (nth_error_swapped _ _ _ _ _ Hni2 Hnj2), Hnth.
  destruct (Nat.eqb_spec n (Z.to_nat i)) as [->|Hn].
  - rewrite Nat.eqb_refl.
    destruct (Nat.eqb_spec (Z.to_nat j) (Z.to_nat i)) as [->|_]; reflexivity.
  - destruct (Nat.eqb_spec n (Z.to_nat j)) as [->|Hn'].
    + rewrite Nat.eqb_refl. reflexivity.
    + destruct (Nat.eqb_spec n (Z.to_nat i)); [congruence|].
      destruct (Nat.eqb_spec n (Z.to_nat j)); [congruence|]. reflexivity.
Qed.

(** ** Rendering *)

Section WithRendering.
Context {R : Rendering}.

Lemma fold_String_acc (evl : EvidenceList) (acc : string) :
  fold_left (fun s e => (s ++ (Evidence_String e ++ tabs))%string) evl acc
  = (acc ++ EvidenceList_String evl)%string.
Proof.
  unfold EvidenceList_String. revert acc.
  induction evl as [|e evl IH]; intro acc; cbn [fold_left].
  - clear. induction acc as [|c acc IH]; cbn; [reflexivity | now rewrite <- IH].
  - rewrite IH, (IH (EmptyString ++ _)%string). cbn [String.append].
    clear. induction acc as [|c acc IH]; cbn; [reflexivity | now rewrite IH].
Qed.

(** X22: String of an EvidenceList writes every item followed by two tabs,
    in order: it is empty exactly for the empty list, and the String of a
    concatenation is the concatenation of the two Strings. *)
Theorem EvidenceList_String_concatenates :
  forall (l1 l2 : EvidenceList) (ev : Evidence),
    EvidenceList_String [] = EmptyString
    /\ EvidenceList_String (ev :: l2)
       = (Evidence_String ev ++ tabs ++ EvidenceList_String l2)%string
    /\ EvidenceList_String (l1 ++ l2)
       = (EvidenceList_String l1 ++ EvidenceList_String l2)%string
    /\ (EvidenceList_String l1 = EmptyString <-> l1 = []).
Proof.
  intros l1 l2 ev.
  assert (Hcons : forall e l, EvidenceList_String (e :: l)
            = (Evidence_String e ++ tabs ++ EvidenceList_String l)%string).
  { intros e l. unfold EvidenceList_String at 1. cbn [fold_left].
    rewrite fold_String_acc. cbn [String.append].
    generalize (Evidence_String e). clear.
    induction s as [|c s IH]; cbn; [reflexivity | now rewrite IH]. }
  split; [reflexivity|]. split; [apply Hcons|]. split.
  - unfold EvidenceList_String at 1. rewrite fold_left_app.
    fold (EvidenceList_String l1). apply fold_String_acc.
  - split; [|now intros ->].
    destruct l1 as [|e l]; [reflexivity|]. rewrite Hcons.
    destruct (Evidence_String e); cbn; discriminate.
Qed.

End WithRendering.

End SortInterface.

(** * Runs on the executable instance *)

Import Reference.

(** The end-to-end scenario: the two prevotes of V for blocks X and Y are
    valid evidence. *)
Example equivocation_verifies :
  DuplicateVoteEvidence_Verify equivocation "chain-A" (MockPV_GetPubKey V) = Returns None.
Proof. reflexivity. Qed.

(** The negative scenario: the same vote twice is not a duplicate vote. *)
Example same_block_rejected :
  DuplicateVoteEvidence_Verify same_vote_twice "chain-A" (MockPV_GetPubKey V)
  = Returns (Some (Errorf
      "DuplicateVoteEvidence Error: BlockIDs are the same (%v) - not a real duplicate vote"
      [OpBlockID (ascii_bytes "X")])).
Proof. reflexivity. Qed.

Example MockGoodEvidence_Hash_run :
  Evidence_Hash (good (-12) "a~") = ascii_bytes "-12-617e".
Proof. reflexivity. Qed.

Example EvidenceList_Hash_three :
  EvidenceList_Hash [good 1 "a"; good 2 "b"; bad 3 "c"]
  = two_hashes (two_hashes (ascii_bytes "1-61") (ascii_bytes "2-62")) (ascii_bytes "3-63").
Proof. reflexivity. Qed.

Example MockGood_Equal_on_bad_panics :
  Evidence_Equal (good 1 "a") (bad 1 "a") = Panics TypeAssertion
  /\ Evidence_Equal (bad 1 "a") (good 1 "a") = Panics TypeAssertion
  /\ Evidence_Equal (good 1 "a") (EvDuplicateVote equivocation) = Panics TypeAssertion
  /\ Evidence_Equal (EvDuplicateVote equivocation) (good 1 "a") = Returns false.
Proof. repeat split. Qed.

Example Height_of_mismatched_heights :
  DuplicateVoteEvidence_Height mismatched_heights = Returns 5
  /\ DuplicateVoteEvidence_Address mismatched_heights = ascii_bytes "V"
  /\ DuplicateVoteEvidence_Verify mismatched_heights "chain-A" (MockPV_GetPubKey V)
     = Returns (Some (Errorf
         "DuplicateVoteEvidence Error: H/R/S does not match. Got %v and %v"
         [OpReply (VoteA mismatched_heights); OpReply (VoteB mismatched_heights)])).
Proof. repeat split. Qed.

Example Height_nil_voteA_panics :
  DuplicateVoteEvidence_Height
    {| dve_PubKey := MockPV_GetPubKey V; VoteA := None; VoteB := signed V (vote_for "Y") |}
  = Panics NilDereference.
Proof. reflexivity. Qed.

(** The end-to-end scenario checked against a public key that is not V's:
    the first four checks hold and the fifth one fails. *)
Example Verify_wrong_pubkey :
  DuplicateVoteEvidence_Verify equivocation "chain-A" (ascii_bytes "W")
  = Returns (Some (Errorf
      "DuplicateVoteEvidence FAILED SANITY CHECK - address (%X) doesn't match pubkey (%v - %X)"
      [OpBytes (ascii_bytes "V"); OpPubKey (ascii_bytes "W"); OpBytes (ascii_bytes "W")])).
Proof. reflexivity. Qed.

(** C2, the claim as stated fails: both votes carry the chain identifier
    chain-A, are signed by SignVote and verify under chain-A, and Verify
    with the different chain identifier chain-B succeeds all the same. *)
Lemma Verify_other_chain_succeeds :
  "chain-A"%string <> "chain-B"%string
  /\ (exists ra rb,
        snd (MockPV_SignVote V (vote_for "X")) = inl ra
        /\ snd (MockPV_SignVote V (vote_for "Y")) = inl rb
        /\ Vote_other (Reply_Vote ra) = "chain-A"%string
        /\ Vote_other (Reply_Vote rb) = "chain-A"%string
        /\ equivocation
           = {| dve_PubKey := MockPV_GetPubKey V; VoteA := Some ra; VoteB := Some rb |})
  /\ DuplicateVoteEvidence_Verify equivocation "chain-A" (MockPV_GetPubKey V) = Returns None
  /\ DuplicateVoteEvidence_Verify equivocation "chain-B" (MockPV_GetPubKey V) = Returns None.
Proof.
  split; [discriminate|]. split; [|split; reflexivity].
  eexists. eexists. repeat split.
Qed.

(** C3, the claim as stated fails: the failures of a MockBadEvidence and of
    a DuplicateVoteEvidence with twice the same vote are bare causes,
    returned without the evidence. *)
Lemma Verify_failure_not_wrapped :
  (Evidence_Verify (bad 1 "a") "chain-A" (MockPV_GetPubKey V)
   = Returns (Some (Errorf "MockBadEvidence" []))
   /\ ~ wraps (bad 1 "a") (Errorf "MockBadEvidence" []))
  /\ (exists e,
        Evidence_Verify (EvDuplicateVote same_vote_twice) "chain-A" (MockPV_GetPubKey V)
        = Returns (Some e)
        /\ ~ wraps (EvDuplicateVote same_vote_twice) e).
Proof.
  split.
  - split; [reflexivity|]. intros [cause H]. discriminate.
  - eexists. split; [reflexivity|]. intros [cause H]. discriminate.
Qed.

Lemma Verify_failure_is_bare_cause_witness :
  Evidence_Verify (bad 1 "a") "chain-A" (MockPV_GetPubKey V)
  = Returns (Some (Errorf "MockBadEvidence" []))
  /\ wrapped_Evidence (NewEvidenceInvalidErr (bad 1 "a") (Errorf "MockBadEvidence" []))
     = Some (bad 1 "a")
  /\ wrapped_ErrorValue (NewEvidenceInvalidErr (bad 1 "a") (Errorf "MockBadEvidence" []))
     = Some (Errorf "MockBadEvidence" []).
Proof.
  split; [reflexivity|].
  pose proof (@Verify_failure_is_bare_cause collaborators external
                (bad 1 "a") "chain-A"%string (MockPV_GetPubKey V)
                (Errorf "MockBadEvidence" []) eq_refl) as H.
  split; apply H.
Defined.

Lemma MaxEvidenceBytesPerBlock_tenth_witness :
  0 <= 10000
  /\ MaxEvidenceBytesPerBlock 10000 = 10000 / 10
  /\ MaxEvidenceBytesPerBlock 10000 = 1000.
Proof.
  split; [lia|]. apply (MaxEvidenceBytesPerBlock_tenth 10000). lia.
Defined.

(** ** Runs for the further properties *)

Lemma reference_key_pairs_sound (pv : MockPV) :
  forall msg sig, PrivKey_Sign (privKey pv) msg = inl sig ->
                  PubKey_VerifyBytes (MockPV_GetPubKey pv) msg sig = true.
Proof.
  intros msg sig. cbn. unfold sign. destruct (privKey pv) as [|k sk]; [discriminate|].
  intros [= <-]. now apply bytes_Equal_true.
Qed.

Lemma reference_BlockID_Equals_refl : forall id : BlockID, BlockID_Equals id id = true.
Proof. intro id. now apply bytes_Equal_true. Qed.

Lemma reference_BlockID_Equals_sym :
  forall id id' : BlockID, BlockID_Equals id id' = BlockID_Equals id' id.
Proof.
  intros id id'. cbn. destruct (bytes_Equal id id') eqn:E; symmetry.
  - apply bytes_Equal_true. apply bytes_Equal_true in E. congruence.
  - apply bytes_Equal_false. apply bytes_Equal_false in E. congruence.
Qed.

(** Evidence can verify under V's key while it stores, and reports the
    address of, another key. *)
Example verified_with_foreign_stored_key :
  let dve := {| dve_PubKey := ascii_bytes "W";
                VoteA := VoteA equivocation; VoteB := VoteB equivocation |} in
  DuplicateVoteEvidence_Verify dve "chain-A" (MockPV_GetPubKey V) = Returns None
  /\ DuplicateVoteEvidence_Address dve = ascii_bytes "W"
  /\ DuplicateVoteEvidence_Address dve <> ascii_bytes "V".
Proof. repeat split. discriminate. Qed.

(** A mock item in front hides the match behind it. *)
Example Has_panics_before_match :
  EvidenceList_Has [good 1 "a"; EvDuplicateVote equivocation] (EvDuplicateVote equivocation)
  = Panics TypeAssertion
  /\ EvidenceList_Has [EvDuplicateVote equivocation; good 1 "a"] (EvDuplicateVote equivocation)
     = Returns true.
Proof. split; reflexivity. Qed.

Example validators_Less :
  PrivValidatorsByAddress_Less validators 1 0 = Some true
  /\ PrivValidatorsByAddress_Less validators 0 1 = Some false
  /\ PrivValidatorsByAddress_Less validators 0 3 = None
  /\ PrivValidatorsByAddress_Less validators (-1) 0 = None.
Proof. repeat split. Qed.

Example EvidenceList_String_run :
  EvidenceList_String [good 1 "a"; bad 2 "b"]
  = ("GoodEvidence: 1/a" ++ tabs ++ "BadEvidence: 2/b" ++ tabs)%string.
Proof. reflexivity. Qed.

Lemma EvidenceList_Has_DuplicateVotes_witness :
  Forall (fun ev => is_DuplicateVote ev = true)
         [EvDuplicateVote same_vote_twice; EvDuplicateVote equivocation]
  /\ EvidenceList_Has [EvDuplicateVote same_vote_twice; EvDuplicateVote equivocation]
                      (EvDuplicateVote equivocation) = Returns true
  /\ EvidenceList_Has [EvDuplicateVote same_vote_twice; EvDuplicateVote equivocation]
                      (good 1 "a") = Returns false.
Proof.
  assert (H : Forall (fun ev => is_DuplicateVote ev = true)
                     [EvDuplicateVote same_vote_twice; EvDuplicateVote equivocation])
    by (repeat constructor).
  split; [exact H|]. split.
  - exact (EvidenceList_Has_DuplicateVotes _ (EvDuplicateVote equivocation) H).
  - exact (EvidenceList_Has_DuplicateVotes _ (good 1 "a") H).
Defined.

Lemma EvidenceList_Has_mixed_variants_witness :
  In (bad 2 "b") [good 1 "a"; bad 2 "b"]
  /\ is_DuplicateVote (bad 2 "b") = false
  /\ is_MockGood (bad 2 "b") <> is_MockGood (good 1 "a")
  /\ (EvidenceList_Has [good 1 "a"; bad 2 "b"] (good 1 "a") = Returns true
      \/ EvidenceList_Has [good 1 "a"; bad 2 "b"] (good 1 "a") = Panics TypeAssertion).
Proof.
  assert (Hin : In (bad 2 "b") [good 1 "a"; bad 2 "b"]) by (right; left; reflexivity).
  assert (Hne : is_MockGood (bad 2 "b") <> is_MockGood (good 1 "a")) by discriminate.
  split; [exact Hin|]. split; [reflexivity|]. split; [exact Hne|].
  exact (EvidenceList_Has_mixed_variants [good 1 "a"; bad 2 "b"] (good 1 "a") (bad 2 "b")
           Hin eq_refl (or_intror Hne)).
Defined.

Lemma EvidenceList_Has_MockGood_membership_witness :
  Forall (fun ev => is_MockGood ev = true) [good 1 "a"; good 2 "b"]
  /\ (exists b, EvidenceList_Has [good 1 "a"; good 2 "b"]
                  (EvMockGood (NewMockGoodEvidence 2 7 (ascii_bytes "b"))) = Returns b)
  /\ (EvidenceList_Has [good 1 "a"; good 2 "b"]
        (EvMockGood (NewMockGoodEvidence 2 7 (ascii_bytes "b"))) = Returns true <->
      In (EvMockGood (NewMockGoodEvidence 2 7 (ascii_bytes "b"))) [good 1 "a"; good 2 "b"]).
Proof.
  assert (H : Forall (fun ev => is_MockGood ev = true) [good 1 "a"; good 2 "b"])
    by (repeat constructor).
  split; [exact H|].
  exact (EvidenceList_Has_MockGood_membership
           [good 1 "a"; good 2 "b"] (NewMockGoodEvidence 2 7 (ascii_bytes "b")) H).
Defined.

Lemma Verify_success_shape_witness :
  DuplicateVoteEvidence_Verify equivocation "chain-A" (MockPV_GetPubKey V) = Returns None
  /\ exists a b,
      VoteA equivocation = Some a /\ VoteB equivocation = Some b
      /\ DuplicateVoteEvidence_Height equivocation = Returns (Vote_Height (Reply_Vote b))
      /\ Vote_Height (Reply_Vote a) = Vote_Height (Reply_Vote b)
      /\ Vote_Round (Reply_Vote a) = Vote_Round (Reply_Vote b)
      /\ Vote_Type (Reply_Vote a) = Vote_Type (Reply_Vote b)
      /\ Vote_ValidatorIndex (Reply_Vote a) = Vote_ValidatorIndex (Reply_Vote b)
      /\ Vote_ValidatorAddress (Reply_Vote a) = PubKey_Address (MockPV_GetPubKey V)
      /\ Vote_ValidatorAddress (Reply_Vote b) = PubKey_Address (MockPV_GetPubKey V)
      /\ BlockID_Equals (Vote_BlockID (Reply_Vote a)) (Vote_BlockID (Reply_Vote b)) = false.
Proof.
  split; [reflexivity|].
  exact (Verify_success_shape equivocation "chain-A"%string (MockPV_GetPubKey V) eq_refl).
Defined.

Lemma MockPV_signatures_verify_witness :
  (forall msg sig, PrivKey_Sign (privKey V) msg = inl sig ->
                   PubKey_VerifyBytes (MockPV_GetPubKey V) msg sig = true)
  /\ snd (MockPV_SignProposal V "chain-A" a_proposal) = None
  /\ PubKey_VerifyBytes (MockPV_GetPubKey V) (Proposal_SignBytes a_proposal "chain-A")
       (Proposal_Signature signed_proposal) = true.
Proof.
  split; [exact (reference_key_pairs_sound V)|]. split; [reflexivity|].
  exact (proj1 (proj2 (MockPV_signatures_verify V "chain-A"%string
                         (vote_for "X") a_proposal a_heartbeat
                         (reference_key_pairs_sound V))) eq_refl).
Defined.

Lemma MockPV_double_sign_verifies_witness :
  (exists ra rb,
     snd (MockPV_SignVote V (vote_for "X")) = inl ra
     /\ snd (MockPV_SignVote V (vote_for "Y")) = inl rb
     /\ equivocation
        = {| dve_PubKey := MockPV_GetPubKey V; VoteA := Some ra; VoteB := Some rb |})
  /\ BlockID_Equals (Vote_BlockID (vote_for "X")) (Vote_BlockID (vote_for "Y")) = false
  /\ DuplicateVoteEvidence_Verify equivocation "chain-B" (MockPV_GetPubKey V) = Returns None.
Proof.
  split; [eexists; eexists; repeat split|]. split; [reflexivity|].
  exact (MockPV_double_sign_verifies V (vote_for "X") (vote_for "Y") _ _ "chain-B"%string
           (reference_key_pairs_sound V) eq_refl eq_refl eq_refl eq_refl eq_refl
           eq_refl eq_refl eq_refl eq_refl).
Defined.

Lemma Verify_same_vote_rejected_witness :
  (forall id : BlockID, BlockID_Equals id id = true)
  /\ DuplicateVoteEvidence_Verify same_vote_twice "chain-A" (MockPV_GetPubKey V)
     = Returns (Some (Errorf
         "DuplicateVoteEvidence Error: BlockIDs are the same (%v) - not a real duplicate vote"
         [OpBlockID (ascii_bytes "X")])).
Proof.
  split; [exact reference_BlockID_Equals_refl|].
  exact (Verify_same_vote_rejected (MockPV_GetPubKey V)
           {| Reply_Vote := vote_for "X";
              Reply_Signature := ascii_bytes "Vchain-A/5/0/1/X" |}
           {| Reply_Vote := vote_for "X";
              Reply_Signature := ascii_bytes "Vchain-A/5/0/1/X" |}
           "chain-A"%string (MockPV_GetPubKey V)
           reference_BlockID_Equals_refl eq_refl).
Defined.

Lemma Verify_success_symmetric_witness :
  (forall id id' : BlockID, BlockID_Equals id id' = BlockID_Equals id' id)
  /\ DuplicateVoteEvidence_Verify
       {| dve_PubKey := MockPV_GetPubKey V;
          VoteA := VoteB equivocation; VoteB := VoteA equivocation |}
       "chain-A" (MockPV_GetPubKey V)
     = Returns None.
Proof.
  split; [exact reference_BlockID_Equals_sym|].
  exact (proj1 (Verify_success_symmetric (MockPV_GetPubKey V)
                  {| Reply_Vote := vote_for "X";
                     Reply_Signature := ascii_bytes "Vchain-A/5/0/1/X" |}
                  {| Reply_Vote := vote_for "Y";
                     Reply_Signature := ascii_bytes "Vchain-A/5/0/1/Y" |}
                  "chain-A"%string (MockPV_GetPubKey V)
                  reference_BlockID_Equals_sym) eq_refl).
Defined.


Lemma EvidenceList_Hash_split_balanced_witness :
  (2 <= List.length [good 1 "a"; good 2 "b"; bad 3 "c"])%nat
  /\ exists left right : EvidenceList,
       [good 1 "a"; good 2 "b"; bad 3 "c"] = left ++ right
       /\ EvidenceList_Hash [good 1 "a"; good 2 "b"; bad 3 "c"]
          = SimpleHashFromTwoHashes (EvidenceList_Hash left) (EvidenceList_Hash right)
       /\ (List.length left = List.length right
           \/ List.length left = S (List.length right)).
Proof.
  assert (H : (2 <= List.length [good 1 "a"; good 2 "b"; bad 3 "c"])%nat) by (cbn; lia).
  split; [exact H|].
  exact (EvidenceList_Hash_split_balanced [good 1 "a"; good 2 "b"; bad 3 "c"] H).
Defined.

Lemma PrivValidatorsByAddress_Less_strict_order_witness :
  index validators 2 = Some (PVMock {| privKey := ascii_bytes "U" |})
  /\ index validators 1 = Some (PVMock V)
  /\ index validators 0 = Some (PVMock {| privKey := ascii_bytes "W" |})
  /\ (PrivValidatorsByAddress_Less validators 2 1 = Some true ->
      PrivValidatorsByAddress_Less validators 1 0 = Some true ->
      PrivValidatorsByAddress_Less validators 2 0 = Some true).
Proof.
  split; [reflexivity|]. split; [reflexivity|]. split; [reflexivity|].
  exact (proj1 (proj2 (proj2
           (PrivValidatorsByAddress_Less_strict_order validators 2 1 0 _ _ _
              eq_refl eq_refl eq_refl)))).
Defined.

Lemma PrivValidatorsByAddress_Swap_exchanges_witness :
  index validators 0 = Some (PVMock {| privKey := ascii_bytes "W" |})
  /\ index validators 2 = Some (PVMock {| privKey := ascii_bytes "U" |})
  /\ index (fst (PrivValidatorsByAddress_Swap 0 2 validators)) 0
     = Some (PVMock {| privKey := ascii_bytes "U" |})
  /\ Permutation.Permutation validators (fst (PrivValidatorsByAddress_Swap 0 2 validators)).
Proof.
  split; [reflexivity|]. split; [reflexivity|].
  pose proof (PrivValidatorsByAddress_Swap_exchanges validators 0 2 _ _ eq_refl eq_refl)
    as (_ & _ & H0 & _ & _ & HP).
  split; [exact H0 | exact HP].
Defined.

Lemma PrivValidatorsByAddress_Swap_twice_witness :
  index validators 0 = Some (PVMock {| privKey := ascii_bytes "W" |})
  /\ index validators 2 = Some (PVMock {| privKey := ascii_bytes "U" |})
  /\ PrivValidatorsByAddress_Swap 0 2 (fst (PrivValidatorsByAddress_Swap 0 2 validators))
     = (validators, Some tt).
Proof.
  split; [reflexivity|]. split; [reflexivity|].
  exact (PrivValidatorsByAddress_Swap_twice validators 0 2 _ _ eq_refl eq_refl).
Defined.

Lemma EvidenceList_Hash_depends_on_item_hashes_witness :
  map Evidence_Hash [good 1 "a"; bad 2 "b"; good 3 "c"]
  = map Evidence_Hash [bad 1 "a"; good 2 "b"; bad 3 "c"]
  /\ EvidenceList_Hash [good 1 "a"; bad 2 "b"; good 3 "c"]
     = EvidenceList_Hash [bad 1 "a"; good 2 "b"; bad 3 "c"].
Proof.
  split; [reflexivity|].
  exact (EvidenceList_Hash_depends_on_item_hashes
           [good 1 "a"; bad 2 "b"; good 3 "c"] [bad 1 "a"; good 2 "b"; bad 3 "c"] eq_refl).
Defined.
